(** * MoneyRequestModal: the money-request wizard of src/pages/iou

    A shallow embedding of [src/pages/iou/MoneyRequestModal.js]: the step
    sequence, the two step indices with the three navigation callbacks, the
    effects that run after a render, the derived animation direction and the
    two submission callbacks.

    Conventions of the embedding.
    - A JavaScript number that is used as a step index is a [Z]; a number
      that comes out of arithmetic on the amount ([amount * 100],
      [Math.round]) is an IEEE-754 binary64 value, [JS.Number].
    - [undefined] is [None]: a property read through [lodashGet], an array
      read past its end, a property the object does not have. Reading a
      property of [undefined] throws, and a callback completes normally
      or with the exception that was thrown.
    - A string is the UTF-8 encoding of the JavaScript string.
    - A callback reads the values of the render that created it and writes
      through the React setters; every call that leaves the component
      function (a setter, an action module, the navigation module) is
      recorded, in order, in the list of calls the callback returns. *)

From Stdlib Require Import ZArith List String Ascii Bool Lia.
From Stdlib Require Import Floats.SpecFloat.
Import ListNotations.
Local Open Scope string_scope.
Local Open Scope list_scope.
Local Open Scope Z_scope.

(** ** The parts of the JavaScript runtime the component relies on *)

Module JS.

(** Numbers are binary64: 53 bits of precision, infinities at exponent 1024. *)
Definition Number : Type := spec_float.
Definition prec : Z := 53.
Definition emax : Z := 1024.

Definition NaN : Number := S754_nan.

(** The number nearest to an integer (round to nearest, ties to even). *)
Definition ofZ (n : Z) : Number := binary_normalize prec emax n 0 false.

(** The number nearest to [m * 10 ^ e], for [0 <= m]. *)
Definition ofDecimal (m e : Z) : Number :=
  match m with
  | Z0 => S754_zero false
  | Zpos p =>
      if 0 <=? e then ofZ (m * 10 ^ e)
      else SFdiv prec emax (S754_finite false p 0)
                           (S754_finite false (Z.to_pos (10 ^ (- e))) 0)
  | Zneg _ => NaN
  end.

(** [x * y] on numbers. *)
Definition mul (x y : Number) : Number := SFmul prec emax x y.

(** The integer a number stands for, when it is finite and integral. *)
Definition toZ (x : Number) : option Z :=
  match x with
  | S754_zero _ => Some 0
  | S754_finite s m e =>
      if 0 <=? e then Some (cond_Zopp s (Zpos m * 2 ^ e))
      else if Zpos m mod 2 ^ (- e) =? 0
           then Some (cond_Zopp s (Zpos m / 2 ^ (- e)))
           else None
  | _ => None
  end.

(** [Math.round]: the nearest integer, a tie going towards +infinity; an
    argument in [-0.5, 0) gives -0. *)
Definition Math_round (x : Number) : Number :=
  match x with
  | S754_finite s m e =>
      if 0 <=? e then x
      else
        let d := 2 ^ (- e) in
        let n := (2 * cond_Zopp s (Zpos m) + d) / (2 * d) in
        if n =? 0 then S754_zero s else ofZ n
  | _ => x
  end.

(** *** Strings

    A string is held as the bytes of its UTF-8 encoding: it stands for a
    JavaScript string without lone surrogates, and two strings are equal
    when their bytes are. *)

Definition code (c : ascii) : Z := Z.of_nat (nat_of_ascii c).

(** White space and line terminators. In one byte: TAB, LF, VT, FF, CR
    and SP. *)
Definition isWhiteSpace1 (a : ascii) : bool :=
  let n := code a in ((9 <=? n) && (n <=? 13)) || (n =? 32).

(** In two bytes: U+00A0. *)
Definition isWhiteSpace2 (a b : ascii) : bool :=
  (code a =? 194) && (code b =? 160).

(** In three bytes: U+1680, U+2000 to U+200A, U+2028, U+2029, U+202F,
    U+205F, U+3000 and U+FEFF. *)
Definition isWhiteSpace3 (a b c : ascii) : bool :=
  let x := code a in
  let y := code b in
  let z := code c in
  ((x =? 225) && (y =? 154) && (z =? 128))
  || ((x =? 226) && (y =? 128)
      && (((128 <=? z) && (z <=? 138)) || (z =? 168) || (z =? 169) || (z =? 175)))
  || ((x =? 226) && (y =? 129) && (z =? 159))
  || ((x =? 227) && (y =? 128) && (z =? 128))
  || ((x =? 239) && (y =? 187) && (z =? 191)).

Fixpoint trimStart (s : string) : string :=
  match s with
  | String a r1 =>
      if isWhiteSpace1 a then trimStart r1
      else
        match r1 with
        | String b r2 =>
            if isWhiteSpace2 a b then trimStart r2
            else
              match r2 with
              | String c r3 => if isWhiteSpace3 a b c then trimStart r3 else s
              | EmptyString => s
              end
        | EmptyString => s
        end
  | EmptyString => EmptyString
  end.

(** The string holds nothing but white space. *)
Definition isBlank (s : string) : bool :=
  match trimStart s with EmptyString => true | String _ _ => false end.

Fixpoint trimEnd (s : string) : string :=
  match s with
  | String a r => if isBlank s then EmptyString else String a (trimEnd r)
  | EmptyString => EmptyString
  end.

(** [String.prototype.trim]. *)
Definition trim (s : string) : string := trimEnd (trimStart s).

(** *** [ToNumber] on a string (the StringNumericLiteral grammar) *)

(** The value of a digit in the given radix. *)
Definition digitValue (radix : Z) (c : ascii) : option Z :=
  let n := code c in
  let v := if (48 <=? n) && (n <=? 57) then n - 48
           else if (97 <=? n) && (n <=? 102) then n - 87
           else if (65 <=? n) && (n <=? 70) then n - 55
           else radix in
  if v <? radix then Some v else None.

(** Reads the longest prefix of digits: its value on top of [acc], the
    number of digits read on top of [count], and the rest of the string. *)
Fixpoint readDigits (radix : Z) (s : string) (acc count : Z) : Z * Z * string :=
  match s with
  | String c s' =>
      match digitValue radix c with
      | Some v => readDigits radix s' (acc * radix + v) (count + 1)
      | None => (acc, count, s)
      end
  | EmptyString => (acc, count, s)
  end.

(** ExponentPart, optional: [e] or [E], an optional sign, digits. [None]
    when the text is not an exponent part followed by the end of the string. *)
Definition readExponent (s : string) : option Z :=
  match s with
  | EmptyString => Some 0
  | String c s' =>
      if (code c =? 101) || (code c =? 69) then
        let '(neg, s'') :=
          match s' with
          | String "+" t => (false, t)
          | String "-" t => (true, t)
          | _ => (false, s')
          end in
        match readDigits 10 s'' 0 0 with
        | (v, n, EmptyString) =>
            if 0 <? n then Some (if neg then - v else v) else None
        | _ => None
        end
      else None
  end.

(** StrUnsignedDecimalLiteral. *)
Definition unsignedDecimal (s : string) : Number :=
  if String.eqb s "Infinity" then S754_infinity false
  else
    let '(i, ni, s1) := readDigits 10 s 0 0 in
    let '(m, nf, s2) :=
      match s1 with
      | String "." t => let '(f, n, r) := readDigits 10 t i 0 in (f, n, r)
      | _ => (i, 0, s1)
      end in
    if 0 <? ni + nf then
      match readExponent s2 with
      | Some e => ofDecimal m (e - nf)
      | None => NaN
      end
    else NaN.

(** NonDecimalIntegerLiteral: [0x], [0o] or [0b] and digits of that radix. *)
Definition nonDecimal (s : string) : option Number :=
  match s with
  | String "0" (String p t) =>
      let radix :=
        if (code p =? 120) || (code p =? 88) then Some 16
        else if (code p =? 111) || (code p =? 79) then Some 8
        else if (code p =? 98) || (code p =? 66) then Some 2
        else None in
      match radix with
      | Some r =>
          match readDigits r t 0 0 with
          | (v, n, EmptyString) => Some (if 0 <? n then ofZ v else NaN)
          | _ => Some NaN
          end
      | None => None
      end
  | _ => None
  end.

(** [ToNumber] applied to a string: the empty or blank string is +0, a
    string outside the grammar is [NaN]. *)
Definition ToNumber (s : string) : Number :=
  match trim s with
  | EmptyString => S754_zero false
  | String "+" t => unsignedDecimal t
  | String "-" t => SFopp (unsignedDecimal t)
  | t => match nonDecimal t with
         | Some x => x
         | None => unsignedDecimal t
         end
  end.

(** [s * k] with a string on the left: the string is converted first. *)
Definition mulString (s : string) (k : Z) : Number := mul (ToNumber s) (ofZ k).

(** Truthiness of a possibly missing boolean. *)
Definition truthy (b : option bool) : bool :=
  match b with Some true => true | _ => false end.

(** [lodashGet(object, path, default)] on a property that may be missing. *)
Definition getOr {A : Type} (v : option A) (default : A) : A :=
  match v with Some a => a | None => default end.

End JS.

(** [_.indexOf(array, value)]: the first position of [value], or -1. *)
Module Underscore.

Fixpoint indexOfFrom (l : list string) (v : string) (i : Z) : Z :=
  match l with
  | [] => -1
  | x :: l' => if String.eqb x v then i else indexOfFrom l' v (i + 1)
  end.

Definition indexOf (l : list string) (v : string) : Z := indexOfFrom l v 0.

End Underscore.

(** [array.length] and [array[i]] for a number [i] that is an integer. *)
Definition len {A : Type} (l : list A) : Z := Z.of_nat (List.length l).

Definition at_index {A : Type} (l : list A) (i : Z) : option A :=
  if i <? 0 then None else nth_error l (Z.to_nat i).

(** ** Data model *)

(** The three step names; the value is the translation key of the title. *)
Module Steps.
Definition IOUAmount : string := "iou.amount".
Definition IOUParticipants : string := "iou.participants".
Definition IOUConfirm : string := "iou.confirm".
End Steps.

(** An entry of the personal-details collection, as the component reads it. *)
Module PersonalDetails.
Record t : Type := {
  login : string;
  displayName : string;
  firstName : option string;
  lastName : option string;
  avatar : string;
  payPalMeAddress : option string;
  phoneNumber : option string
}.
End PersonalDetails.

Module Icon.
Record t : Type := { source : string; name : string; type : string }.
End Icon.

(** The option the wizard keeps for each participant. *)
Module Participant.
Record t : Type := {
  login : string;
  text : string;
  firstName : string;
  lastName : string;
  alternateText : string;
  icons : list Icon.t;
  keyForList : string;
  payPalMeAddress : string;
  phoneNumber : string
}.
End Participant.

(** The report passed via the route; [participants] may be missing. *)
Module Report.
Record t : Type := {
  reportID : string;
  participants : option (list string)
}.
End Report.

(** The value stored under [ONYXKEYS.IOU]. The comment is there once the
    description was set; the value of [defaultProps] has none. *)
Module Iou.
Record t : Type := {
  creatingIOUTransaction : option bool;
  error : option bool;
  selectedCurrencyCode : option string;
  comment : option string
}.
End Iou.

(** A reference to a value held by Onyx. Onyx never updates a value in
    place: a reference stands for one value for ever, and a change of the
    value reaches the component as another reference. *)
Definition Ref : Type := nat.

Record Props : Type := {
  hasMultipleParticipants : bool;
  iouType : string;
  report : Report.t;
  network_isOffline : bool;
  iou : Ref;
  personalDetails : list (string * PersonalDetails.t);
  currentUser_login : string;
  currentUser_localCurrencyCode : string;
  route_params_reportID : option string;
  preferredLocale : string
}.

(** The four [useState] cells. *)
Record State : Type := {
  previousStepIndex : Z;
  currentStepIndex : Z;
  participants : list Participant.t;
  amount : string
}.

(** The two [useRef] cells. *)
Record Refs : Type := {
  prevCreatingIOUTransactionStatusRef : option bool;
  prevNetworkStatusRef : bool
}.

Record Hooks : Type := { state : State; refs : Refs }.

(** Every call that leaves the component function. *)
Inductive Call : Type :=
| SetPreviousStepIndex (i : Z)
| SetCurrentStepIndex (i : Z)
| SetParticipants (l : list Participant.t)
| SetAmount (v : string)
| OpenMoneyRequestModalPage
| SetIOUSelectedCurrency (currency : string)
| SetMoneyRequestDescription (comment : string)
| DismissModal
| ScrollToBottom
| SendMoneyElsewhere (r : Report.t) (amountInDollars : JS.Number)
    (currency : option string) (comment login : string)
    (participant : option Participant.t)
| SendMoneyViaPaypal (r : Report.t) (amountInDollars : JS.Number)
    (currency : option string) (comment login : string)
    (participant : option Participant.t)
| SendMoneyWithWallet (r : Report.t) (amountInDollars : JS.Number)
    (currency : option string) (comment login : string)
    (participant : option Participant.t)
| SplitBill (selected : list Participant.t) (login amount comment : string)
    (currency : option string) (locale reportID : string)
| SplitBillAndOpenReport (selected : list Participant.t)
    (login amount comment : string) (currency : option string) (locale : string)
| RequestMoney (r : Report.t) (amount : JS.Number) (currency : option string)
    (login : string) (participant : option Participant.t) (comment : string).

(** ** Commands

    A command works on the hook cells; it returns a value or throws, and
    in both cases it leaves the hook cells it reached and the calls it made
    until then. *)

Inductive Error : Type :=
| TypeError (message : string).

Inductive Completion (A : Type) : Type :=
| Normal (a : A)
| Throw (e : Error).

Arguments Normal {A} a.
Arguments Throw {A} e.

Definition M (A : Type) : Type := Hooks -> Completion A * Hooks * list Call.

Definition ret {A : Type} (a : A) : M A := fun h => (Normal a, h, []).

Definition throw {A : Type} (e : Error) : M A := fun h => (Throw e, h, []).

(** What follows a command that threw does not run. *)
Definition bind {A B : Type} (c : M A) (k : A -> M B) : M B :=
  fun h =>
    let '(r, h1, l1) := c h in
    match r with
    | Normal a => let '(b, h2, l2) := k a h1 in (b, h2, l1 ++ l2)
    | Throw e => (Throw e, h1, l1)
    end.

Declare Scope cmd_scope.
Delimit Scope cmd_scope with cmd.
Notation "x <- c ;; k" := (bind c (fun x => k))
  (at level 61, c at next level, right associativity) : cmd_scope.
Notation "c ;; k" := (bind c (fun _ => k))
  (at level 61, right associativity) : cmd_scope.
Local Open Scope cmd_scope.

(** [return;] and falling off the end of a function. *)
Definition skip : M unit := ret tt.

Definition call (c : Call) : M unit := fun h => (Normal tt, h, [c]).

(** What a command completed with. *)
Definition completionOf {A : Type} (c : M A) (h : Hooks) : Completion A :=
  fst (fst (c h)).

Definition hooksAfter {A : Type} (c : M A) (h : Hooks) : Hooks := snd (fst (c h)).
Definition callsOf {A : Type} (c : M A) (h : Hooks) : list Call := snd (c h).

Definition updState (f : State -> State) : M unit :=
  fun h => (Normal tt, {| state := f (state h); refs := refs h |}, []).

Definition updRefs (f : Refs -> Refs) : M unit :=
  fun h => (Normal tt, {| state := state h; refs := f (refs h) |}, []).

Definition readRefs : M Refs := fun h => (Normal (refs h), h, []).

(** [v.trim()] for a [v] that may be undefined: reading a property of
    [undefined] throws a [TypeError]. *)
Definition trimOfUndefined : Error :=
  TypeError "Cannot read properties of undefined (reading 'trim')".

Definition trimOf (v : option string) : M string :=
  match v with
  | Some s => ret (JS.trim s)
  | None => throw trimOfUndefined
  end.

(** The setters of the four state cells. *)
Definition setPreviousStepIndex (i : Z) : M unit :=
  call (SetPreviousStepIndex i) ;;
  updState (fun s => {| previousStepIndex := i;
                        currentStepIndex := currentStepIndex s;
                        participants := participants s;
                        amount := amount s |}).

Definition setCurrentStepIndex (i : Z) : M unit :=
  call (SetCurrentStepIndex i) ;;
  updState (fun s => {| previousStepIndex := previousStepIndex s;
                        currentStepIndex := i;
                        participants := participants s;
                        amount := amount s |}).

Definition setParticipants (l : list Participant.t) : M unit :=
  call (SetParticipants l) ;;
  updState (fun s => {| previousStepIndex := previousStepIndex s;
                        currentStepIndex := currentStepIndex s;
                        participants := l;
                        amount := amount s |}).

Definition setAmount (v : string) : M unit :=
  call (SetAmount v) ;;
  updState (fun s => {| previousStepIndex := previousStepIndex s;
                        currentStepIndex := currentStepIndex s;
                        participants := participants s;
                        amount := v |}).

(** A state that differs from [s] in the two indices only. *)
Definition withIndices (s : State) (previous current : Z) : State :=
  {| previousStepIndex := previous;
     currentStepIndex := current;
     participants := participants s;
     amount := amount s |}.

(** ** What the file imports from the rest of the repository

    [CONST] and the helper modules are not part of this file; the component
    is parametric in them. *)

Record Constants : Type := {
  IOU_PAYMENT_TYPE_ELSEWHERE : string;
  IOU_PAYMENT_TYPE_PAYPAL_ME : string;
  IOU_PAYMENT_TYPE_EXPENSIFY : string;
  (** [CONST.REGEX.NUMBER.test] *)
  REGEX_NUMBER_test : string -> bool;
  ICON_TYPE_AVATAR : string
}.

Record Collaborators : Type := {
  (** [OptionsListUtils.getPersonalDetailsForLogins] *)
  getPersonalDetailsForLogins :
    list string -> list (string * PersonalDetails.t) -> list PersonalDetails.t;
  (** [Str.isSMSLogin], [Str.removeSMSDomain] *)
  isSMSLogin : string -> bool;
  removeSMSDomain : string -> string;
  (** [ReportUtils.getAvatar] *)
  getAvatar : string -> string -> string
}.

(** What a memo or a prop of the view can hold besides a string. *)
Inductive Value : Type :=
| Str (s : string)
| Null
| Undefined.

(** The cell of the [direction] memo: the dependencies it was computed for
    and its value. *)
Record DirectionMemo : Type := {
  memo_previousStepIndex : Z;
  memo_currentStepIndex : Z;
  memo_direction : Value
}.

(** A mounted component: the props of its last render, its hook cells and
    the direction memo. *)
Record Component : Type := {
  props : Props;
  hooks : Hooks;
  directionMemo : DirectionMemo
}.

(** What the user, the child pages and the parent can do to the component. *)
Inductive Event : Type :=
| NewProps (p : Props)
| BackButtonPress
| AmountStepComplete (value : string)
| AddParticipants (selected : list Participant.t)
| ParticipantsStepComplete
| Confirm (selected : list Participant.t)
| SendMoneyPressed (paymentMethodType : string)
| ConfirmNavigateToStep (stepIndex : Z).

Section MoneyRequestModal.

Variable CONST : Constants.
Variable lib : Collaborators.

(** The value behind a reference the [iou] prop can hold. *)
Variable onyx : Ref -> Iou.t.

Definition reportParticipants (p : Props) : list string :=
  JS.getOr (Report.participants (report p)) [].

Definition participantsWithDetails (p : Props) : list Participant.t :=
  map (fun d : PersonalDetails.t =>
         let login := PersonalDetails.login d in
         {| Participant.login := login;
            Participant.text := PersonalDetails.displayName d;
            Participant.firstName := JS.getOr (PersonalDetails.firstName d) "";
            Participant.lastName := JS.getOr (PersonalDetails.lastName d) "";
            Participant.alternateText :=
              if isSMSLogin lib login then removeSMSDomain lib login else login;
            Participant.icons :=
              [ {| Icon.source := getAvatar lib (PersonalDetails.avatar d) login;
                   Icon.name := login;
                   Icon.type := ICON_TYPE_AVATAR CONST |} ];
            Participant.keyForList := login;
            Participant.payPalMeAddress :=
              JS.getOr (PersonalDetails.payPalMeAddress d) "";
            Participant.phoneNumber := JS.getOr (PersonalDetails.phoneNumber d) "" |})
      (getPersonalDetailsForLogins lib (reportParticipants p) (personalDetails p)).

(** Skip the participants step if participants are passed in. *)
Definition steps (p : Props) : list string :=
  if negb (len (reportParticipants p) =? 0)
  then [Steps.IOUAmount; Steps.IOUConfirm]
  else [Steps.IOUAmount; Steps.IOUParticipants; Steps.IOUConfirm].

Definition iouOf (p : Props) : Iou.t := onyx (iou p).

(** *** The first values of the hook cells *)

Definition initialState (p : Props) : State :=
  {| previousStepIndex := 0;
     currentStepIndex := 0;
     participants := participantsWithDetails p;
     amount := "" |}.

Definition initialRefs (p : Props) : Refs :=
  {| prevCreatingIOUTransactionStatusRef := Iou.creatingIOUTransaction (iouOf p);
     prevNetworkStatusRef := network_isOffline p |}.

(** *** Effects, in the order the component declares them *)

Definition mountEffect (p : Props) : M unit :=
  call OpenMoneyRequestModalPage ;;
  call (SetIOUSelectedCurrency (currentUser_localCurrencyCode p)) ;;
  call (SetMoneyRequestDescription "").

Definition transactionCompletionEffect (p : Props) : M unit :=
  r <- readRefs ;;
  if negb (JS.truthy (prevCreatingIOUTransactionStatusRef r))
     || JS.truthy (Iou.creatingIOUTransaction (iouOf p))
  then skip
  else
    match Iou.error (iouOf p) with
    | Some true => setCurrentStepIndex 0
    | _ => call DismissModal
    end.

Definition connectivityEffect (p : Props) : M unit :=
  r <- readRefs ;;
  if network_isOffline p || negb (prevNetworkStatusRef r)
  then skip
  else call OpenMoneyRequestModalPage.

Definition bookkeepingEffect (p : Props) : M unit :=
  updRefs (fun _ =>
    {| prevCreatingIOUTransactionStatusRef := Iou.creatingIOUTransaction (iouOf p);
       prevNetworkStatusRef := network_isOffline p |}).

(** The effects of one commit. [before] holds the props of the render
    before this one, [None] on mount; an effect with dependencies runs on
    mount and when a dependency is another value than in that render. *)
Definition effects (before : option Props) (p : Props) : M unit :=
  match before with
  | None =>
      mountEffect p ;;
      transactionCompletionEffect p ;;
      connectivityEffect p ;;
      bookkeepingEffect p
  | Some q =>
      (if Nat.eqb (iou q) (iou p) then skip else transactionCompletionEffect p) ;;
      (if Bool.eqb (network_isOffline q) (network_isOffline p)
       then skip else connectivityEffect p) ;;
      bookkeepingEffect p
  end.

(** *** Values derived in a render *)

(** The animation of the step: 'in' when the index grows, 'out' when it
    shrinks, from the confirm step to the amount step 'in' all the same. *)
Definition direction (p : Props) (s : State) : Value :=
  let amountIndex := Underscore.indexOf (steps p) Steps.IOUAmount in
  let confirmIndex := Underscore.indexOf (steps p) Steps.IOUConfirm in
  if (previousStepIndex s =? confirmIndex) && (currentStepIndex s =? amountIndex)
  then Str "in"
  else if (previousStepIndex s =? amountIndex) && (currentStepIndex s =? confirmIndex)
  then Str "out"
  else if previousStepIndex s <? currentStepIndex s then Str "in"
  else if previousStepIndex s >? currentStepIndex s then Str "out"
  else if previousStepIndex s =? currentStepIndex s then Null
  else Undefined.

Definition computeDirection (p : Props) (s : State) : DirectionMemo :=
  {| memo_previousStepIndex := previousStepIndex s;
     memo_currentStepIndex := currentStepIndex s;
     memo_direction := direction p s |}.

(** [useMemo(..., [previousStepIndex, currentStepIndex])]: the cell is
    kept while both indices are the ones it was computed for. *)
Definition useMemoDirection (cell : option DirectionMemo) (p : Props) (s : State)
  : DirectionMemo :=
  match cell with
  | Some m =>
      if (memo_previousStepIndex m =? previousStepIndex s)
         && (memo_currentStepIndex m =? currentStepIndex s)
      then m else computeDirection p s
  | None => computeDirection p s
  end.

(** [steps[currentStepIndex]], the page that is shown. *)
Definition currentStep (p : Props) (s : State) : option string :=
  at_index (steps p) (currentStepIndex s).

Definition shouldShowBackButton (s : State) : bool := currentStepIndex s >? 0.

(** *** Navigation callbacks *)

Definition navigateToStep (p : Props) (s : State) (stepIndex : Z) : M unit :=
  if (stepIndex <? 0) || (stepIndex >? len (steps p)) then skip
  else if currentStepIndex s =? stepIndex then skip
  else
    setPreviousStepIndex (currentStepIndex s) ;;
    setCurrentStepIndex stepIndex.

Definition navigateToPreviousStep (s : State) : M unit :=
  if currentStepIndex s <=? 0 then skip
  else
    setPreviousStepIndex (currentStepIndex s) ;;
    setCurrentStepIndex (currentStepIndex s - 1).

Definition navigateToNextStep (p : Props) (s : State) : M unit :=
  if currentStepIndex s >=? len (steps p) - 1 then skip
  else
    let confirmIndex := Underscore.indexOf (steps p) Steps.IOUConfirm in
    if previousStepIndex s =? confirmIndex then navigateToStep p s confirmIndex
    else
      setPreviousStepIndex (currentStepIndex s) ;;
      setCurrentStepIndex (currentStepIndex s + 1).

(** *** Submission callbacks *)

Definition sendMoney (p : Props) (s : State) (paymentMethodType : string) : M unit :=
  let amountInDollars := JS.Math_round (JS.mulString (amount s) 100) in
  let currency := Iou.selectedCurrencyCode (iouOf p) in
  trimmedComment <- trimOf (Iou.comment (iouOf p)) ;;
  let participant := at_index (participants s) 0 in
  if String.eqb paymentMethodType (IOU_PAYMENT_TYPE_ELSEWHERE CONST) then
    call (SendMoneyElsewhere (report p) amountInDollars currency trimmedComment
            (currentUser_login p) participant)
  else if String.eqb paymentMethodType (IOU_PAYMENT_TYPE_PAYPAL_ME CONST) then
    call (SendMoneyViaPaypal (report p) amountInDollars currency trimmedComment
            (currentUser_login p) participant)
  else if String.eqb paymentMethodType (IOU_PAYMENT_TYPE_EXPENSIFY CONST) then
    call (SendMoneyWithWallet (report p) amountInDollars currency trimmedComment
            (currentUser_login p) participant)
  else skip.

Definition createTransaction (p : Props) (s : State)
  (selectedParticipants : list Participant.t) : M unit :=
  let reportID := JS.getOr (route_params_reportID p) "" in
  trimmedComment <- trimOf (Iou.comment (iouOf p)) ;;
  if hasMultipleParticipants p && REGEX_NUMBER_test CONST reportID then
    call (SplitBill selectedParticipants (currentUser_login p) (amount s)
            trimmedComment (Iou.selectedCurrencyCode (iouOf p))
            (preferredLocale p) reportID)
  else if hasMultipleParticipants p then
    call (SplitBillAndOpenReport selectedParticipants (currentUser_login p)
            (amount s) trimmedComment (Iou.selectedCurrencyCode (iouOf p))
            (preferredLocale p))
  else
    call (RequestMoney (report p) (JS.Math_round (JS.mulString (amount s) 100))
            (Iou.selectedCurrencyCode (iouOf p)) (currentUser_login p)
            (at_index selectedParticipants 0) trimmedComment).

(** *** What the view shows

    The screen wrapper tells the view whether the screen transition has
    ended. Until then the view shows the loading indicator and no page;
    after that it shows the page of the current step, if there is one.
    The header with the back button is part of each of the three pages. *)

Definition loadingShown (didScreenTransitionEnd : bool) : bool :=
  negb didScreenTransitionEnd.

Definition pageShown (didScreenTransitionEnd : bool) (p : Props) (s : State)
  (step : string) : bool :=
  didScreenTransitionEnd
  && match currentStep p s with
     | Some x => String.eqb x step
     | None => false
     end.

Definition headerShown (didScreenTransitionEnd : bool) (p : Props) (s : State) : bool :=
  pageShown didScreenTransitionEnd p s Steps.IOUAmount
  || pageShown didScreenTransitionEnd p s Steps.IOUParticipants
  || pageShown didScreenTransitionEnd p s Steps.IOUConfirm.

(** *** Handlers the view passes to the pages

    An event comes from a page that is shown: the page that fires it has
    been rendered, so the screen transition had ended, and its step is the
    current one. An event of a page that is not shown does not exist and
    does nothing. *)

Definition handle (p : Props) (s : State) (ev : Event) : M unit :=
  match ev with
  | NewProps _ => skip
  | BackButtonPress =>
      if headerShown true p s then navigateToPreviousStep s else skip
  | AmountStepComplete value =>
      if pageShown true p s Steps.IOUAmount
      then setAmount value ;; navigateToNextStep p s
      else skip
  | AddParticipants selected =>
      if pageShown true p s Steps.IOUParticipants then setParticipants selected else skip
  | ParticipantsStepComplete =>
      if pageShown true p s Steps.IOUParticipants then navigateToNextStep p s else skip
  | Confirm selected =>
      if pageShown true p s Steps.IOUConfirm
      then createTransaction p s selected ;; call ScrollToBottom
      else skip
  | SendMoneyPressed paymentMethodType =>
      if pageShown true p s Steps.IOUConfirm
      then sendMoney p s paymentMethodType ;; call ScrollToBottom
      else skip
  | ConfirmNavigateToStep stepIndex =>
      if pageShown true p s Steps.IOUConfirm then navigateToStep p s stepIndex else skip
  end.

(** *** Renders *)

(** One render and its commit: the memo is brought up to date, then the
    effects run. *)
Definition renderPass (before : option Props) (cell : option DirectionMemo)
  (p : Props) (h : Hooks) : Component * list Call :=
  let memo := useMemoDirection cell p (state h) in
  let '(_, h', calls) := effects before p h in
  ({| props := p; hooks := h'; directionMemo := memo |}, calls).

(** A setter called by an effect asks for one more render, unless it
    stored the value the cell already had. *)
Definition settle (rendered : State) (r : Component * list Call)
  : Component * list Call :=
  let '(c, calls) := r in
  if currentStepIndex (state (hooks c)) =? currentStepIndex rendered then r
  else
    let '(c', calls') :=
      renderPass (Some (props c)) (Some (directionMemo c)) (props c) (hooks c) in
    (c', calls ++ calls').

Definition mount (p : Props) : Component * list Call :=
  let h := {| state := initialState p; refs := initialRefs p |} in
  settle (state h) (renderPass None None p h).

(** The render that follows an event, with the props [p] and the hook
    cells [h] the event left. *)
Definition update (c : Component) (p : Props) (h : Hooks) : Component * list Call :=
  settle (state h) (renderPass (Some (props c)) (Some (directionMemo c)) p h).

(** What one event produces: what the handler completed with and called,
    the component after the render that follows, and what the effects of
    that render called. A handler that throws stops there: the calls it
    made before stay made, and the exception leaves the component
    function, which is rendered like after any other event. *)
Record Outcome : Type := {
  after : Component;
  handlerCompletion : Completion unit;
  handlerCalls : list Call;
  effectCalls : list Call
}.

Definition step (c : Component) (ev : Event) : Outcome :=
  let '(r, h, calls) := handle (props c) (state (hooks c)) ev (hooks c) in
  let p := match ev with NewProps p' => p' | _ => props c end in
  let '(c', calls') := update c p h in
  {| after := c'; handlerCompletion := r; handlerCalls := calls;
     effectCalls := calls' |}.

(** The component after a list of events, and what each event produced. *)
Fixpoint run (c : Component) (evs : list Event) : Component * list Outcome :=
  match evs with
  | [] => (c, [])
  | ev :: evs' =>
      let o := step c ev in
      let '(c', os) := run (after o) evs' in
      (c', o :: os)
  end.

Definition final (c : Component) (evs : list Event) : Component := fst (run c evs).

(** The component that was mounted with [p] and then saw [evs]. *)
Definition session (p : Props) (evs : list Event) : Component :=
  final (fst (mount p)) evs.

(** *** Observations on a run *)

(** The in-flight flag a render sees. *)
Definition creatingFlag (p : Props) : option bool :=
  Iou.creatingIOUTransaction (iouOf p).

(** The flag was set in the render before and is not set in this one. *)
Definition fallingEdge (p q : Props) : bool :=
  JS.truthy (creatingFlag p) && negb (JS.truthy (creatingFlag q)).

(** What the completion effect does once it is past its guard. *)
Definition completionCall (p : Props) : Call :=
  match Iou.error (iouOf p) with
  | Some true => SetCurrentStepIndex 0
  | _ => DismissModal
  end.

(** The payment method is one of the three the component knows. *)
Definition recognized (paymentMethodType : string) : bool :=
  String.eqb paymentMethodType (IOU_PAYMENT_TYPE_ELSEWHERE CONST)
  || String.eqb paymentMethodType (IOU_PAYMENT_TYPE_PAYPAL_ME CONST)
  || String.eqb paymentMethodType (IOU_PAYMENT_TYPE_EXPENSIFY CONST).

(** The device was offline in the render before and is online in this one. *)
Definition cameBackOnline (p q : Props) : bool :=
  network_isOffline p && negb (network_isOffline q).

(** The state the completion effect leaves when the flag fell from the
    render with [p] to the render with [q]. *)
Definition settledState (p q : Props) (s : State) : State :=
  if fallingEdge p q && JS.truthy (Iou.error (iouOf q))
  then withIndices s (previousStepIndex s) 0
  else s.

(** The refs hold what the bookkeeping effect stored in the render with
    the props the component has, and the memo was computed for the two
    indices the component has. *)
Definition consistent (c : Component) : Prop :=
  refs (hooks c) = initialRefs (props c)
  /\ memo_previousStepIndex (directionMemo c) = previousStepIndex (state (hooks c))
  /\ memo_currentStepIndex (directionMemo c) = currentStepIndex (state (hooks c)).

(** The step sequence is the one of [p] in every render of [evs]. *)
Definition keepsSteps (p : Props) (evs : list Event) : Prop :=
  Forall (fun ev => match ev with
                    | NewProps q => steps q = steps p
                    | _ => True
                    end) evs.

End MoneyRequestModal.


(** The calls that store a step index. *)
Definition isIndexSetter (c : Call) : bool :=
  match c with
  | SetPreviousStepIndex _ | SetCurrentStepIndex _ => true
  | _ => false
  end.

(** The hook cells that differ from [h] in the two indices only. *)
Definition moved (h : Hooks) (previous current : Z) : Hooks :=
  {| state := withIndices (state h) previous current; refs := refs h |}.

(** A command left the drafts and the refs as they were and called
    nothing but the two index setters. *)
Definition touchesIndicesOnly (c : M unit) (h : Hooks) : Prop :=
  amount (state (hooksAfter c h)) = amount (state h)
  /\ participants (state (hooksAfter c h)) = participants (state h)
  /\ refs (hooksAfter c h) = refs h
  /\ forallb isIndexSetter (callsOf c h) = true.

(** The amount of a call that takes it in minor units, as an integer. *)
Definition minorUnits (c : Call) : option Z :=
  match c with
  | SendMoneyElsewhere _ a _ _ _ _
  | SendMoneyViaPaypal _ a _ _ _ _
  | SendMoneyWithWallet _ a _ _ _ _
  | RequestMoney _ a _ _ _ _ => JS.toZ a
  | _ => None
  end.

(** The events that do nothing but navigate. *)
Definition navigationEvents (stepIndex : Z) : list Event :=
  [BackButtonPress; ParticipantsStepComplete; ConfirmNavigateToStep stepIndex].

(** ** Sample data: a user on a three-step and on a two-step wizard *)

Module Sample.

Definition CONST : Constants :=
  {| IOU_PAYMENT_TYPE_ELSEWHERE := "Elsewhere";
     IOU_PAYMENT_TYPE_PAYPAL_ME := "PayPal.me";
     IOU_PAYMENT_TYPE_EXPENSIFY := "Expensify";
     REGEX_NUMBER_test := fun s =>
       match JS.readDigits 10 s 0 0 with
       | (_, n, EmptyString) => 0 <? n
       | _ => false
       end;
     ICON_TYPE_AVATAR := "avatar" |}.

Definition details (login : string) : PersonalDetails.t :=
  {| PersonalDetails.login := login;
     PersonalDetails.displayName := login;
     PersonalDetails.firstName := None;
     PersonalDetails.lastName := None;
     PersonalDetails.avatar := "";
     PersonalDetails.payPalMeAddress := None;
     PersonalDetails.phoneNumber := None |}.

Definition lib : Collaborators :=
  {| getPersonalDetailsForLogins := fun logins _ => map details logins;
     isSMSLogin := fun _ => false;
     removeSMSDomain := fun s => s;
     getAvatar := fun avatar _ => avatar |}.

(** Reference 0: nothing in flight. 1: a creation in flight. 2: settled
    with an error. 3: settled without one. 4: the value of [defaultProps],
    which has no comment. *)
Definition onyx (r : Ref) : Iou.t :=
  match r with
  | 4%nat =>
      {| Iou.creatingIOUTransaction := Some false;
         Iou.error := Some false;
         Iou.selectedCurrencyCode := None;
         Iou.comment := None |}
  | _ =>
      {| Iou.creatingIOUTransaction :=
           match r with 1%nat => Some true | _ => Some false end;
         Iou.error := match r with 2%nat => Some true | _ => Some false end;
         Iou.selectedCurrencyCode := Some "USD";
         Iou.comment := Some " lunch " |}
  end.

Definition propsWith (logins : option (list string)) (multi : bool)
  (routeReportID : option string) (r : Ref) : Props :=
  {| hasMultipleParticipants := multi;
     iouType := "request";
     report := {| Report.reportID := "42"; Report.participants := logins |};
     network_isOffline := false;
     iou := r;
     personalDetails := [];
     currentUser_login := "me@example.com";
     currentUser_localCurrencyCode := "USD";
     route_params_reportID := routeReportID;
     preferredLocale := "en" |}.

(** Opened from the global menu: no participants yet, three steps. *)
Definition fromMenu : Props := propsWith None false None 0%nat.

(** Opened from a chat with one other person: two steps. *)
Definition fromChat : Props := propsWith (Some ["you@example.com"]) false (Some "42") 0%nat.

Definition someState (previous current : Z) (amount : string) : State :=
  {| previousStepIndex := previous;
     currentStepIndex := current;
     participants := participantsWithDetails CONST lib fromChat;
     amount := amount |}.

Definition someHooks (previous current : Z) (amount : string) : Hooks :=
  {| state := someState previous current amount;
     refs := initialRefs onyx fromChat |}.

End Sample.

(** ** More of the view and of what a run shows *)

(** [_.isEmpty] on a string. *)
Definition isEmpty (s : string) : bool :=
  match s with EmptyString => true | String _ _ => false end.

(** The participants the confirm page receives: all but the current user. *)
Definition confirmPageParticipants (p : Props) (s : State) : list Participant.t :=
  filter (fun email =>
            negb (String.eqb (currentUser_login p) (Participant.login email)))
         (participants s).

(** The participants can be modified when the route names a report. *)
Definition canModifyParticipants (p : Props) : bool :=
  negb (isEmpty (JS.getOr (route_params_reportID p) "")).

Section Texts.

(** [props.translate] *)
Variable translate : string -> string.

(** The text of the button of the amount page. *)
Definition amountButtonText (p : Props) (s : State) : string :=
  if previousStepIndex s =? Underscore.indexOf (steps p) Steps.IOUConfirm
  then translate "common.save"
  else translate "common.next".

End Texts.

(** The call that fetches the currency details anew. *)
Definition isRefresh (c : Call) : bool :=
  match c with OpenMoneyRequestModalPage => true | _ => false end.

(** The calls that reset the shared draft. *)
Definition isDraftReset (c : Call) : bool :=
  match c with
  | SetIOUSelectedCurrency _ | SetMoneyRequestDescription _ => true
  | _ => false
  end.

(** The calls a handler can make: the four setters, the six actions that
    submit, and the scroll. *)
Definition isHandlerCall (c : Call) : bool :=
  match c with
  | OpenMoneyRequestModalPage | SetIOUSelectedCurrency _
  | SetMoneyRequestDescription _ | DismissModal => false
  | _ => true
  end.

(** The participant a send-money call pays. *)
Definition recipientOf (c : Call) : option (option Participant.t) :=
  match c with
  | SendMoneyElsewhere _ _ _ _ _ participant
  | SendMoneyViaPaypal _ _ _ _ _ participant
  | SendMoneyWithWallet _ _ _ _ _ participant => Some participant
  | _ => None
  end.

(** Both indices of the state are indices of the step sequence of [p]. *)
Definition indicesInside (p : Props) (s : State) : Prop :=
  0 <= previousStepIndex s < len (steps p)
  /\ 0 <= currentStepIndex s < len (steps p).

(** The call that splits a bill on the report the user is viewing. *)
Definition isSplitBill (c : Call) : bool :=
  match c with SplitBill _ _ _ _ _ _ _ => true | _ => false end.

(** The confirm page never asks for the index that equals the length of
    the step sequence of [p]. *)
Definition staysBelowLength (p : Props) (evs : list Event) : Prop :=
  Forall (fun ev => match ev with
                    | ConfirmNavigateToStep i => i <> len (steps p)
                    | _ => True
                    end) evs.

(** The event is a change of the props, not an act of the user. *)
Definition isNewProps (ev : Event) : bool :=
  match ev with NewProps _ => true | _ => false end.

(** The events of a user who completes every step before the confirm step. *)
Definition walkToConfirm (p : Props) (value : string)
  (selected : list Participant.t) : list Event :=
  if len (steps p) =? 2
  then [AmountStepComplete value]
  else [AmountStepComplete value; AddParticipants selected; ParticipantsStepComplete].

(** * Properties *)

(** Splits on every integer test of the goal. *)
Ltac split_tests :=
  repeat match goal with
    | |- context [?a =? ?b] => destruct (Z.eqb_spec a b)
    | |- context [?a <? ?b] => destruct (Z.ltb_spec a b)
    | |- context [?a >? ?b] => destruct (Z.gtb_spec a b)
    | |- context [?a <=? ?b] => destruct (Z.leb_spec a b)
    | |- context [?a >=? ?b] => destruct (Z.geb_spec a b)
    end.

(** ** White space *)

(** [trim] and [ToNumber] strip the white space of Unicode as well: here
    U+00A0 before the text and U+2028 after it. *)
Example trim_strips_unicode_white_space :
  let nbsp := String (ascii_of_nat 194) (String (ascii_of_nat 160) EmptyString) in
  let ls := String (ascii_of_nat 226) (String (ascii_of_nat 128)
              (String (ascii_of_nat 168) EmptyString)) in
  JS.trim (String.append nbsp (String.append " lunch" ls)) = "lunch"
  /\ JS.trim (String.append ls nbsp) = ""
  /\ JS.toZ (JS.Math_round
               (JS.mulString (String.append nbsp (String.append "12.345" ls)) 100))
     = Some 1235.
Proof. vm_compute. repeat split. Qed.

(** ** The step sequence *)

Lemma steps_cases (p : Props) :
  steps p = [Steps.IOUAmount; Steps.IOUConfirm]
  \/ steps p = [Steps.IOUAmount; Steps.IOUParticipants; Steps.IOUConfirm].
Proof.
  unfold steps. destruct (negb _); [left | right]; reflexivity.
Qed.

Lemma amountIndex_is_first (p : Props) :
  Underscore.indexOf (steps p) Steps.IOUAmount = 0.
Proof. destruct (steps_cases p) as [E | E]; rewrite E; reflexivity. Qed.

Lemma confirmIndex_is_last (p : Props) :
  Underscore.indexOf (steps p) Steps.IOUConfirm = len (steps p) - 1.
Proof. destruct (steps_cases p) as [E | E]; rewrite E; reflexivity. Qed.

Lemma steps_length (p : Props) : 2 <= len (steps p) <= 3.
Proof. destruct (steps_cases p) as [E | E]; rewrite E; cbn; lia. Qed.

(** ** Navigation *)

(** What [navigateToStep] does, for every index. *)
Lemma navigateToStep_run (p : Props) (s : State) (i : Z) (h : Hooks) :
  navigateToStep p s i h =
    if (i <? 0) || (i >? len (steps p)) || (currentStepIndex s =? i)
    then (Normal tt, h, [])
    else (Normal tt, moved h (currentStepIndex s) i,
          [SetPreviousStepIndex (currentStepIndex s); SetCurrentStepIndex i]).
Proof.
  unfold navigateToStep.
  destruct ((i <? 0) || (i >? len (steps p))); [reflexivity |].
  destruct (currentStepIndex s =? i); reflexivity.
Qed.

Lemma navigateToPreviousStep_run (s : State) (h : Hooks) :
  navigateToPreviousStep s h =
    if currentStepIndex s <=? 0 then (Normal tt, h, [])
    else (Normal tt, moved h (currentStepIndex s) (currentStepIndex s - 1),
          [SetPreviousStepIndex (currentStepIndex s);
           SetCurrentStepIndex (currentStepIndex s - 1)]).
Proof.
  unfold navigateToPreviousStep.
  destruct (currentStepIndex s <=? 0); reflexivity.
Qed.

Lemma navigateToNextStep_run (p : Props) (s : State) (h : Hooks) :
  navigateToNextStep p s h =
    if currentStepIndex s >=? len (steps p) - 1 then (Normal tt, h, [])
    else
      let target :=
        if previousStepIndex s =? len (steps p) - 1
        then len (steps p) - 1 else currentStepIndex s + 1 in
      (Normal tt, moved h (currentStepIndex s) target,
       [SetPreviousStepIndex (currentStepIndex s); SetCurrentStepIndex target]).
Proof.
  unfold navigateToNextStep. rewrite confirmIndex_is_last.
  destruct (Z.geb_spec (currentStepIndex s) (len (steps p) - 1)) as [G | L];
    [reflexivity |].
  destruct (previousStepIndex s =? len (steps p) - 1); [| reflexivity].
  rewrite navigateToStep_run.
  pose proof (steps_length p).
  replace ((len (steps p) - 1 <? 0) || (len (steps p) - 1 >? len (steps p))
           || (currentStepIndex s =? len (steps p) - 1)) with false by lia.
  reflexivity.
Qed.

(** C2, at the index that equals the length of the step sequence: on the
    two-step wizard, from the confirm step (index 1), [navigateToStep(2)]
    is not ignored; it stores 1 as the previous and 2 as the current index. *)
Theorem navigateToStep_accepts_length :
  len (steps Sample.fromChat) = 2
  /\ navigateToStep Sample.fromChat (Sample.someState 0 1 "10") 2
       (Sample.someHooks 0 1 "10")
     = (Normal tt, Sample.someHooks 1 2 "10",
        [SetPreviousStepIndex 1; SetCurrentStepIndex 2]).
Proof. split; reflexivity. Qed.

(** C7: [navigateToNextStep] does nothing on the last index; before the
    last index it goes to the confirm index when the previous index is the
    confirm index, and one index further otherwise, the old current index
    becoming the previous one. (An index beyond the last one, which is not
    an index of the step sequence, is left alone as well.) *)
Theorem navigateToNextStep_spec (p : Props) (s : State) (h : Hooks) :
  let last := len (steps p) - 1 in
  let confirmIndex := Underscore.indexOf (steps p) Steps.IOUConfirm in
  (currentStepIndex s = last -> navigateToNextStep p s h = (Normal tt, h, []))
  /\ (currentStepIndex s > last -> navigateToNextStep p s h = (Normal tt, h, []))
  /\ (currentStepIndex s < last -> previousStepIndex s = confirmIndex ->
      navigateToNextStep p s h =
        (Normal tt, moved h (currentStepIndex s) confirmIndex,
         [SetPreviousStepIndex (currentStepIndex s);
          SetCurrentStepIndex confirmIndex]))
  /\ (currentStepIndex s < last -> previousStepIndex s <> confirmIndex ->
      navigateToNextStep p s h =
        (Normal tt, moved h (currentStepIndex s) (currentStepIndex s + 1),
         [SetPreviousStepIndex (currentStepIndex s);
          SetCurrentStepIndex (currentStepIndex s + 1)])).
Proof.
  intros last confirmIndex. subst last confirmIndex.
  rewrite confirmIndex_is_last, navigateToNextStep_run.
  repeat split.
  - intros E. destruct (Z.geb_spec (currentStepIndex s) (len (steps p) - 1));
      [reflexivity | lia].
  - intros G. destruct (Z.geb_spec (currentStepIndex s) (len (steps p) - 1));
      [reflexivity | lia].
  - intros L E. destruct (Z.geb_spec (currentStepIndex s) (len (steps p) - 1));
      [lia |].
    rewrite E, Z.eqb_refl. reflexivity.
  - intros L N. destruct (Z.geb_spec (currentStepIndex s) (len (steps p) - 1));
      [lia |].
    destruct (Z.eqb_spec (previousStepIndex s) (len (steps p) - 1));
      [contradiction | reflexivity].
Qed.

Lemma navigateToNextStep_spec_witness :
  navigateToNextStep Sample.fromMenu (Sample.someState 1 2 "10")
    (Sample.someHooks 1 2 "10") = (Normal tt, Sample.someHooks 1 2 "10", [])
  /\ navigateToNextStep Sample.fromMenu (Sample.someState 2 0 "10")
       (Sample.someHooks 2 0 "10")
     = (Normal tt, Sample.someHooks 0 2 "10",
        [SetPreviousStepIndex 0; SetCurrentStepIndex 2])
  /\ navigateToNextStep Sample.fromMenu (Sample.someState 0 1 "10")
       (Sample.someHooks 0 1 "10")
     = (Normal tt, Sample.someHooks 1 2 "10",
        [SetPreviousStepIndex 1; SetCurrentStepIndex 2]).
Proof.
  split; [| split].
  - destruct (navigateToNextStep_spec Sample.fromMenu (Sample.someState 1 2 "10")
                (Sample.someHooks 1 2 "10")) as (H & _).
    apply H. reflexivity.
  - destruct (navigateToNextStep_spec Sample.fromMenu (Sample.someState 2 0 "10")
                (Sample.someHooks 2 0 "10")) as (_ & _ & H & _).
    apply H; reflexivity.
  - destruct (navigateToNextStep_spec Sample.fromMenu (Sample.someState 0 1 "10")
                (Sample.someHooks 0 1 "10")) as (_ & _ & _ & H).
    apply H; [reflexivity | discriminate].
Defined.

(** ** The animation direction *)

(** What the callback of the direction memo computes from the step
    sequence and the two indices of one render: 'in' from the confirm
    index to the amount index, 'out' from the amount index to the confirm
    index, [null] when the two indices are equal, and for every other pair
    'in' when the index grew and 'out' when it shrank. The view receives
    this value only when the memo runs the callback, see
    [useMemoDirection]. *)
Lemma direction_spec (p : Props) (s : State) :
  let amountIndex := Underscore.indexOf (steps p) Steps.IOUAmount in
  let confirmIndex := Underscore.indexOf (steps p) Steps.IOUConfirm in
  let special :=
    (previousStepIndex s = confirmIndex /\ currentStepIndex s = amountIndex)
    \/ (previousStepIndex s = amountIndex /\ currentStepIndex s = confirmIndex) in
  (previousStepIndex s = confirmIndex -> currentStepIndex s = amountIndex ->
   direction p s = Str "in")
  /\ (previousStepIndex s = amountIndex -> currentStepIndex s = confirmIndex ->
      direction p s = Str "out")
  /\ (previousStepIndex s = currentStepIndex s -> direction p s = Null)
  /\ (~ special -> previousStepIndex s < currentStepIndex s ->
      direction p s = Str "in")
  /\ (~ special -> previousStepIndex s > currentStepIndex s ->
      direction p s = Str "out").
Proof.
  cbv zeta. unfold direction.
  rewrite amountIndex_is_first, confirmIndex_is_last.
  pose proof (steps_length p) as B.
  split; [| split; [| split; [| split]]]; intros; split_tests; cbn;
    first [reflexivity | lia | tauto].
Qed.

Lemma direction_spec_witness :
  direction Sample.fromMenu (Sample.someState 2 0 "") = Str "in"
  /\ direction Sample.fromMenu (Sample.someState 0 2 "") = Str "out"
  /\ direction Sample.fromMenu (Sample.someState 1 1 "") = Null
  /\ direction Sample.fromMenu (Sample.someState 0 1 "") = Str "in"
  /\ direction Sample.fromMenu (Sample.someState 2 1 "") = Str "out".
Proof.
  repeat apply conj.
  - destruct (direction_spec Sample.fromMenu (Sample.someState 2 0 ""))
      as (H & _). apply H; reflexivity.
  - destruct (direction_spec Sample.fromMenu (Sample.someState 0 2 ""))
      as (_ & H & _). apply H; reflexivity.
  - destruct (direction_spec Sample.fromMenu (Sample.someState 1 1 ""))
      as (_ & _ & H & _). apply H; reflexivity.
  - destruct (direction_spec Sample.fromMenu (Sample.someState 0 1 ""))
      as (_ & _ & _ & H & _).
    apply H; [vm_compute; intros [[_ E] | [_ E]]; discriminate E | reflexivity].
  - destruct (direction_spec Sample.fromMenu (Sample.someState 2 1 ""))
      as (_ & _ & _ & _ & H).
    apply H; [vm_compute; intros [[_ E] | [_ E]]; discriminate E | reflexivity].
Defined.

(** ** What navigation leaves alone *)

Lemma touchesIndicesOnly_skip (h : Hooks) : touchesIndicesOnly skip h.
Proof. repeat split. Qed.

Lemma touchesIndicesOnly_moved (c : M unit) (h : Hooks) (i j : Z) :
  c h = (Normal tt, moved h i j, [SetPreviousStepIndex i; SetCurrentStepIndex j]) ->
  touchesIndicesOnly c h.
Proof.
  intros E. unfold touchesIndicesOnly, hooksAfter, callsOf. rewrite E.
  repeat split.
Qed.

Lemma navigateToStep_frame (p : Props) (s : State) (i : Z) (h : Hooks) :
  touchesIndicesOnly (navigateToStep p s i) h.
Proof.
  pose proof (navigateToStep_run p s i h) as E.
  destruct ((i <? 0) || (i >? len (steps p)) || (currentStepIndex s =? i)).
  - unfold touchesIndicesOnly, hooksAfter, callsOf. rewrite E. repeat split.
  - eapply touchesIndicesOnly_moved, E.
Qed.

Lemma navigateToPreviousStep_frame (s : State) (h : Hooks) :
  touchesIndicesOnly (navigateToPreviousStep s) h.
Proof.
  pose proof (navigateToPreviousStep_run s h) as E.
  destruct (currentStepIndex s <=? 0).
  - unfold touchesIndicesOnly, hooksAfter, callsOf. rewrite E. repeat split.
  - eapply touchesIndicesOnly_moved, E.
Qed.

Lemma navigateToNextStep_frame (p : Props) (s : State) (h : Hooks) :
  touchesIndicesOnly (navigateToNextStep p s) h.
Proof.
  pose proof (navigateToNextStep_run p s h) as E.
  destruct (currentStepIndex s >=? len (steps p) - 1).
  - unfold touchesIndicesOnly, hooksAfter, callsOf. rewrite E. repeat split.
  - eapply touchesIndicesOnly_moved, E.
Qed.

(** ** Renders *)

Section Renders.

Variable CONST : Constants.
Variable lib : Collaborators.
Variable onyx : Ref -> Iou.t.

(** The effects of a render after the first one, when the refs hold what
    the render before stored. *)
Lemma effects_run (q p : Props) (h : Hooks) :
  refs h = initialRefs onyx q ->
  effects onyx (Some q) p h =
    (Normal tt,
     {| state := settledState onyx q p (state h); refs := initialRefs onyx p |},
     (if fallingEdge onyx q p then [completionCall onyx p] else [])
     ++ (if cameBackOnline q p then [OpenMoneyRequestModalPage] else [])).
Proof.
  intros R. destruct h as [s r]. cbn in R. subst r.
  unfold effects, settledState, fallingEdge, cameBackOnline, completionCall,
    creatingFlag, iouOf, transactionCompletionEffect, connectivityEffect,
    bookkeepingEffect, initialRefs, iouOf.
  destruct (Nat.eqb_spec (iou q) (iou p)) as [E | E].
  - rewrite E.
    destruct (Iou.creatingIOUTransaction (onyx (iou p))) as [[|] |];
      destruct (network_isOffline q), (network_isOffline p); reflexivity.
  - destruct (Iou.creatingIOUTransaction (onyx (iou q))) as [[|] |];
      destruct (Iou.creatingIOUTransaction (onyx (iou p))) as [[|] |];
      destruct (Iou.error (onyx (iou p))) as [[|] |];
      destruct (network_isOffline q), (network_isOffline p);
      destruct s; reflexivity.
Qed.

(** A render with the props of the render before runs the bookkeeping
    effect only, and that stores what the refs hold already. *)
Lemma effects_same_props (p : Props) (h : Hooks) :
  refs h = initialRefs onyx p -> effects onyx (Some p) p h = (Normal tt, h, []).
Proof.
  intros R. rewrite (effects_run p p h R).
  unfold settledState, fallingEdge, cameBackOnline.
  destruct (JS.truthy (creatingFlag onyx p)), (network_isOffline p);
    destruct h; cbn in *; subst; reflexivity.
Qed.

Lemma mount_effects_run (p : Props) (s : State) :
  effects onyx None p {| state := s; refs := initialRefs onyx p |} =
    (Normal tt, {| state := s; refs := initialRefs onyx p |},
     [OpenMoneyRequestModalPage;
      SetIOUSelectedCurrency (currentUser_localCurrencyCode p);
      SetMoneyRequestDescription ""]).
Proof.
  unfold effects, mountEffect, transactionCompletionEffect, connectivityEffect,
    bookkeepingEffect, initialRefs, iouOf.
  destruct (Iou.creatingIOUTransaction (onyx (iou p))) as [[|] |];
    destruct (network_isOffline p); reflexivity.
Qed.

Lemma useMemoDirection_deps (cell : option DirectionMemo) (p : Props) (s : State) :
  memo_previousStepIndex (useMemoDirection cell p s) = previousStepIndex s
  /\ memo_currentStepIndex (useMemoDirection cell p s) = currentStepIndex s.
Proof.
  unfold useMemoDirection. destruct cell as [m |]; [| split; reflexivity].
  destruct (Z.eqb_spec (memo_previousStepIndex m) (previousStepIndex s));
    destruct (Z.eqb_spec (memo_currentStepIndex m) (currentStepIndex s));
    cbn; split; auto.
Qed.

Lemma useMemoDirection_keep (m : DirectionMemo) (p : Props) (s : State) :
  memo_previousStepIndex m = previousStepIndex s ->
  memo_currentStepIndex m = currentStepIndex s ->
  useMemoDirection (Some m) p s = m.
Proof.
  intros E1 E2. unfold useMemoDirection. rewrite E1, E2, !Z.eqb_refl. reflexivity.
Qed.

Lemma useMemoDirection_recompute (m : DirectionMemo) (p : Props) (s : State) :
  memo_currentStepIndex m <> currentStepIndex s ->
  useMemoDirection (Some m) p s = computeDirection p s.
Proof.
  intros N. unfold useMemoDirection.
  destruct (Z.eqb_spec (memo_currentStepIndex m) (currentStepIndex s));
    [contradiction |].
  rewrite andb_false_r. reflexivity.
Qed.

(** The render after an event: the hooks, the calls and the memo. *)
Lemma update_run (c : Component) (p : Props) (h : Hooks) :
  refs h = initialRefs onyx (props c) ->
  let (c', calls) := update onyx c p h in
  props c' = p
  /\ hooks c' = {| state := settledState onyx (props c) p (state h);
                   refs := initialRefs onyx p |}
  /\ calls = (if fallingEdge onyx (props c) p then [completionCall onyx p] else [])
             ++ (if cameBackOnline (props c) p then [OpenMoneyRequestModalPage] else [])
  /\ directionMemo c' =
       useMemoDirection
         (Some (useMemoDirection (Some (directionMemo c)) p (state h)))
         p (settledState onyx (props c) p (state h))
  /\ consistent onyx c'.
Proof.
  intros R. unfold update, renderPass. rewrite (effects_run _ p h R).
  cbn [settle props hooks state directionMemo].
  destruct (Z.eqb_spec (currentStepIndex (settledState onyx (props c) p (state h)))
              (currentStepIndex (state h))) as [E | E].
  - assert (S : settledState onyx (props c) p (state h) = state h).
    { unfold settledState in *. destruct (_ && _); [| reflexivity].
      destruct (state h); cbn in *. subst. reflexivity. }
    rewrite S. repeat split; cbn [props hooks state refs directionMemo];
      try apply useMemoDirection_deps.
    symmetry. apply useMemoDirection_keep; apply useMemoDirection_deps.
  - unfold renderPass. rewrite effects_same_props by reflexivity.
    repeat split; cbn [props hooks state refs directionMemo];
      try apply useMemoDirection_deps.
    apply app_nil_r.
Qed.

(** *** Submission: one call at most, and the hook cells stay *)

Lemma sendMoney_hooks (p : Props) (s : State) (m : string) (h : Hooks) :
  hooksAfter (sendMoney CONST onyx p s m) h = h.
Proof.
  unfold sendMoney, hooksAfter, bind, trimOf.
  destruct (Iou.comment (iouOf onyx p)); [| reflexivity]. cbn.
  repeat match goal with |- context [String.eqb ?a ?b] => destruct (String.eqb a b) end;
    reflexivity.
Qed.

Lemma createTransaction_hooks (p : Props) (s : State)
  (sel : list Participant.t) (h : Hooks) :
  hooksAfter (createTransaction CONST onyx p s sel) h = h.
Proof.
  unfold createTransaction, hooksAfter, bind, trimOf.
  destruct (Iou.comment (iouOf onyx p)); [| reflexivity]. cbn.
  destruct (hasMultipleParticipants p), (REGEX_NUMBER_test CONST _); reflexivity.
Qed.

(** After a command that returned, the rest runs on the hook cells it left. *)
Lemma hooksAfter_bind {A B : Type} (c : M A) (k : A -> M B) (h : Hooks) (a : A) :
  completionOf c h = Normal a ->
  hooksAfter (bind c k) h = hooksAfter (k a) (hooksAfter c h).
Proof.
  unfold completionOf, hooksAfter, bind. destruct (c h) as [[r h1] l1]. cbn.
  intros ->. destruct (k a h1) as [[b h2] l2]. reflexivity.
Qed.

(** A call at the end leaves the hook cells the command reached, whether
    it runs or not. *)
Lemma hooksAfter_then_call {A : Type} (c : M A) (x : Call) (h : Hooks) :
  hooksAfter (bind c (fun _ => call x)) h = hooksAfter c h.
Proof.
  unfold hooksAfter, bind. destruct (c h) as [[r h1] l1]. destruct r; reflexivity.
Qed.

(** No handler writes a ref. *)
Lemma handle_refs (p : Props) (s : State) (ev : Event) (h : Hooks) :
  refs (hooksAfter (handle CONST onyx p s ev) h) = refs h.
Proof.
  destruct ev; unfold handle;
    try match goal with |- context [if ?b then _ else _] => destruct b end;
    try reflexivity.
  - apply navigateToPreviousStep_frame.
  - erewrite hooksAfter_bind by reflexivity.
    transitivity (refs (hooksAfter (setAmount value) h)); [| reflexivity].
    apply navigateToNextStep_frame.
  - apply navigateToNextStep_frame.
  - rewrite hooksAfter_then_call, createTransaction_hooks. reflexivity.
  - rewrite hooksAfter_then_call, sendMoney_hooks. reflexivity.
  - apply navigateToStep_frame.
Qed.

(** *** Every component of a session is consistent *)

Lemma mount_consistent (p : Props) :
  consistent onyx (fst (mount CONST lib onyx p))
  /\ snd (mount CONST lib onyx p) =
       [OpenMoneyRequestModalPage;
        SetIOUSelectedCurrency (currentUser_localCurrencyCode p);
        SetMoneyRequestDescription ""]
  /\ props (fst (mount CONST lib onyx p)) = p
  /\ state (hooks (fst (mount CONST lib onyx p))) = initialState CONST lib p.
Proof.
  unfold mount, renderPass. rewrite mount_effects_run.
  cbn [settle hooks state]. rewrite Z.eqb_refl.
  repeat split.
Qed.

Lemma step_run (c : Component) (ev : Event) :
  consistent onyx c ->
  let h := hooksAfter (handle CONST onyx (props c) (state (hooks c)) ev) (hooks c) in
  let p := match ev with NewProps q => q | _ => props c end in
  let o := step CONST onyx c ev in
  props (after o) = p
  /\ hooks (after o) = {| state := settledState onyx (props c) p (state h);
                          refs := initialRefs onyx p |}
  /\ handlerCalls o = callsOf (handle CONST onyx (props c) (state (hooks c)) ev) (hooks c)
  /\ effectCalls o =
       (if fallingEdge onyx (props c) p then [completionCall onyx p] else [])
       ++ (if cameBackOnline (props c) p then [OpenMoneyRequestModalPage] else [])
  /\ directionMemo (after o) =
       useMemoDirection
         (Some (useMemoDirection (Some (directionMemo c)) p (state h)))
         p (settledState onyx (props c) p (state h))
  /\ consistent onyx (after o).
Proof.
  intros (R & _). cbv zeta.
  pose proof (handle_refs (props c) (state (hooks c)) ev (hooks c)) as F.
  unfold step, hooksAfter, callsOf in *.
  destruct (handle CONST onyx (props c) (state (hooks c)) ev (hooks c))
    as [[u h] calls]. cbn [fst snd] in *.
  rewrite R in F.
  pose proof (update_run c (match ev with NewProps q => q | _ => props c end) h F) as U.
  destruct (update onyx c _ h) as [c' calls'].
  cbn [after handlerCalls effectCalls]. tauto.
Qed.

Lemma final_consistent (evs : list Event) :
  forall c, consistent onyx c -> consistent onyx (final CONST onyx c evs).
Proof.
  induction evs as [| ev evs IH]; intros c I; [exact I |].
  unfold final in *. cbn [run].
  specialize (IH (after (step CONST onyx c ev))).
  destruct (run CONST onyx (after (step CONST onyx c ev)) evs) as [c' os].
  apply IH. apply (step_run c ev I).
Qed.

Lemma session_consistent (p : Props) (evs : list Event) :
  consistent onyx (session CONST lib onyx p evs).
Proof. apply final_consistent, mount_consistent. Qed.

End Renders.

(** ** The completion effect along a session *)

Section Completion.

Variable CONST : Constants.
Variable lib : Collaborators.
Variable onyx : Ref -> Iou.t.




(** C9: when the flag fell and the error flag is [true], the state after
    the render differs from the state before in the current step index
    only, which is 0: the previous step index, the amount and the
    participants are the ones from before. When the current index was
    not 0, the direction is computed anew, from the previous index that
    was left in place. *)
Theorem error_branch_keeps_previous_index
  (p0 : Props) (evs : list Event) (q : Props) :
  let c := session CONST lib onyx p0 evs in
  let o := step CONST onyx c (NewProps q) in
  let s := state (hooks c) in
  fallingEdge onyx (props c) q = true ->
  Iou.error (iouOf onyx q) = Some true ->
  state (hooks (after o)) = withIndices s (previousStepIndex s) 0
  /\ previousStepIndex (state (hooks (after o))) = previousStepIndex s
  /\ amount (state (hooks (after o))) = amount s
  /\ participants (state (hooks (after o))) = participants s
  /\ (currentStepIndex s <> 0 ->
      memo_direction (directionMemo (after o))
      = direction q (withIndices s (previousStepIndex s) 0)).
Proof.
  cbv zeta. intros F E.
  pose proof (session_consistent CONST lib onyx p0 evs) as I.
  destruct (step_run CONST onyx _ (NewProps q) I) as (_ & H & _ & _ & D & _).
  cbn [handle] in H, D. unfold hooksAfter, skip, ret in H, D. cbn [fst snd] in H, D.
  assert (S : settledState onyx (props (session CONST lib onyx p0 evs)) q
                (state (hooks (session CONST lib onyx p0 evs)))
              = withIndices (state (hooks (session CONST lib onyx p0 evs)))
                  (previousStepIndex (state (hooks (session CONST lib onyx p0 evs)))) 0).
  { unfold settledState. rewrite F, E. reflexivity. }
  rewrite S in H, D. rewrite H. cbn [state].
  repeat split.
  intros N. rewrite D.
  destruct I as (_ & I1 & I2).
  rewrite (useMemoDirection_keep _ q _ I1 I2).
  rewrite useMemoDirection_recompute; [reflexivity |].
  rewrite I2. exact N.
Qed.

End Completion.

Lemma error_branch_keeps_previous_index_witness :
  let evs := [AmountStepComplete "10"; ParticipantsStepComplete; Confirm [];
              NewProps (Sample.propsWith None false None 1%nat)] in
  let q := Sample.propsWith None false None 2%nat in
  let c := session Sample.CONST Sample.lib Sample.onyx Sample.fromMenu evs in
  let o := step Sample.CONST Sample.onyx c (NewProps q) in
  (previousStepIndex (state (hooks c)) = 1 /\ currentStepIndex (state (hooks c)) = 2)
  /\ (previousStepIndex (state (hooks (after o))) = 1
      /\ currentStepIndex (state (hooks (after o))) = 0)
  /\ memo_direction (directionMemo (after o)) = Str "out".
Proof.
  cbv zeta.
  destruct (error_branch_keeps_previous_index Sample.CONST Sample.lib Sample.onyx
              Sample.fromMenu
              [AmountStepComplete "10"; ParticipantsStepComplete; Confirm [];
               NewProps (Sample.propsWith None false None 1%nat)]
              (Sample.propsWith None false None 2%nat))
    as (S & P & _ & _ & D); [reflexivity | reflexivity |].
  split; [split; reflexivity |].
  split; [split; [exact P | rewrite S; reflexivity] |].
  rewrite D; [vm_compute; reflexivity | vm_compute; discriminate].
Defined.

(** ** What navigation leaves alone, along a session *)

Section Frame.

Variable CONST : Constants.
Variable lib : Collaborators.
Variable onyx : Ref -> Iou.t.

Lemma settledState_same_props (p : Props) (s : State) :
  settledState onyx p p s = s.
Proof.
  unfold settledState, fallingEdge.
  destruct (JS.truthy (creatingFlag onyx p)); reflexivity.
Qed.

Lemma handle_navigation_frame (p : Props) (s : State) (i : Z) (h : Hooks) :
  Forall (fun ev => touchesIndicesOnly (handle CONST onyx p s ev) h)
    (navigationEvents i).
Proof.
  unfold navigationEvents.
  constructor; [| constructor; [| constructor; [| constructor]]]; unfold handle;
    match goal with |- context [if ?b then _ else _] => destruct b end;
    try apply touchesIndicesOnly_skip.
  - apply navigateToPreviousStep_frame.
  - apply navigateToNextStep_frame.
  - apply navigateToStep_frame.
Qed.

(** C10: each of the three navigation callbacks leaves the amount, the
    participants and the refs as they were and calls nothing but the two
    index setters; and after an event that only navigates, in any
    session, the props, hence the step sequence, the amount and the
    participants are the ones from before the event. *)
Theorem navigation_touches_indices_only
  (p : Props) (s : State) (i : Z) (h : Hooks) (p0 : Props) (evs : list Event) :
  let c := session CONST lib onyx p0 evs in
  touchesIndicesOnly (navigateToStep p s i) h
  /\ touchesIndicesOnly (navigateToPreviousStep s) h
  /\ touchesIndicesOnly (navigateToNextStep p s) h
  /\ Forall (fun ev =>
               let c' := after (step CONST onyx c ev) in
               steps (props c') = steps (props c)
               /\ amount (state (hooks c')) = amount (state (hooks c))
               /\ participants (state (hooks c')) = participants (state (hooks c)))
       (navigationEvents i).
Proof.
  cbv zeta.
  split; [apply navigateToStep_frame |].
  split; [apply navigateToPreviousStep_frame |].
  split; [apply navigateToNextStep_frame |].
  pose proof (session_consistent CONST lib onyx p0 evs) as I.
  set (c := session CONST lib onyx p0 evs) in *.
  pose proof (handle_navigation_frame (props c) (state (hooks c)) i (hooks c)) as F.
  rewrite Forall_forall in F. apply Forall_forall. intros ev IN.
  destruct (step_run CONST onyx c ev I) as (P & H & _).
  destruct (F ev IN) as (A & B & _).
  assert (E : match ev with NewProps q => q | _ => props c end = props c).
  { unfold navigationEvents in IN. cbn in IN.
    destruct IN as [<- | [<- | [<- | []]]]; reflexivity. }
  rewrite E in P, H. rewrite P, H. cbn [state].
  rewrite settledState_same_props. auto.
Qed.

End Frame.

(** ** The range of the current step index *)

Section IndexRange.

Variable CONST : Constants.
Variable lib : Collaborators.
Variable onyx : Ref -> Iou.t.

(** [navigateToNextStep] and [navigateToPreviousStep] keep the current
    index inside the step sequence. *)
Lemma navigateToNextStep_in_range (p : Props) (s : State) (h : Hooks) :
  currentStepIndex (state h) = currentStepIndex s ->
  0 <= currentStepIndex s < len (steps p) ->
  0 <= currentStepIndex (state (hooksAfter (navigateToNextStep p s) h))
    < len (steps p).
Proof.
  intros E B. unfold hooksAfter. rewrite navigateToNextStep_run.
  destruct (Z.geb_spec (currentStepIndex s) (len (steps p) - 1)); cbn; [lia |].
  destruct (previousStepIndex s =? len (steps p) - 1); lia.
Qed.

Lemma navigateToPreviousStep_in_range (p : Props) (s : State) (h : Hooks) :
  currentStepIndex (state h) = currentStepIndex s ->
  0 <= currentStepIndex s < len (steps p) ->
  0 <= currentStepIndex (state (hooksAfter (navigateToPreviousStep s) h))
    < len (steps p).
Proof.
  intros E B. unfold hooksAfter. rewrite navigateToPreviousStep_run.
  destruct (Z.leb_spec (currentStepIndex s) 0); cbn; lia.
Qed.

(** [navigateToStep] keeps it between 0 and the length, the length
    included. *)
Lemma navigateToStep_up_to_length (p : Props) (s : State) (i : Z) (h : Hooks) :
  0 <= currentStepIndex (state h) <= len (steps p) ->
  0 <= currentStepIndex (state (hooksAfter (navigateToStep p s i) h))
    <= len (steps p).
Proof.
  intros B. unfold hooksAfter. rewrite navigateToStep_run.
  destruct (Z.ltb_spec i 0); destruct (Z.gtb_spec i (len (steps p)));
    destruct (currentStepIndex s =? i); cbn; lia.
Qed.

Lemma handle_up_to_length (p : Props) (ev : Event) (h : Hooks) :
  0 <= currentStepIndex (state h) <= len (steps p) ->
  0 <= currentStepIndex (state (hooksAfter (handle CONST onyx p (state h) ev) h))
    <= len (steps p).
Proof.
  intros B. pose proof (steps_length p) as L.
  destruct ev; unfold handle;
    try match goal with |- context [if ?b then _ else _] => destruct b end;
    try exact B.
  - unfold hooksAfter. rewrite navigateToPreviousStep_run.
    destruct (Z.leb_spec (currentStepIndex (state h)) 0); cbn; lia.
  - erewrite hooksAfter_bind by reflexivity. unfold hooksAfter.
    rewrite navigateToNextStep_run.
    destruct (Z.geb_spec (currentStepIndex (state h)) (len (steps p) - 1));
      cbn; [lia |].
    destruct (previousStepIndex (state h) =? len (steps p) - 1); lia.
  - unfold hooksAfter. rewrite navigateToNextStep_run.
    destruct (Z.geb_spec (currentStepIndex (state h)) (len (steps p) - 1));
      cbn; [lia |].
    destruct (previousStepIndex (state h) =? len (steps p) - 1); lia.
  - rewrite hooksAfter_then_call, createTransaction_hooks. exact B.
  - rewrite hooksAfter_then_call, sendMoney_hooks. exact B.
  - apply navigateToStep_up_to_length, B.
Qed.

Lemma final_up_to_length (p0 : Props) (evs : list Event) :
  keepsSteps p0 evs ->
  forall c,
    consistent onyx c ->
    steps (props c) = steps p0 ->
    0 <= currentStepIndex (state (hooks c)) <= len (steps p0) ->
    0 <= currentStepIndex (state (hooks (final CONST onyx c evs)))
      <= len (steps p0).
Proof.
  induction 1 as [| ev evs K _ IH]; intros c I S B; [exact B |].
  unfold final in *. cbn [run].
  specialize (IH (after (step CONST onyx c ev))).
  destruct (run CONST onyx (after (step CONST onyx c ev)) evs) as [c' os].
  cbn [fst] in *.
  destruct (step_run CONST onyx c ev I) as (P & H & _ & _ & _ & I').
  apply IH; [exact I' | |].
  - rewrite P. destruct ev; assumption.
  - rewrite H. cbn [state].
    rewrite <- S in B |- *.
    pose proof (handle_up_to_length (props c) ev (hooks c) B) as B'.
    unfold settledState. destruct (_ && _); cbn; lia.
Qed.

(** In a session whose step sequence stays the same, the current index
    is never below 0 and never above the length of the step sequence. *)
Lemma session_index_up_to_length (p0 : Props) (evs : list Event) :
  keepsSteps p0 evs ->
  0 <= currentStepIndex (state (hooks (session CONST lib onyx p0 evs)))
    <= len (steps p0).
Proof.
  intros K. pose proof (steps_length p0).
  destruct (mount_consistent CONST lib onyx p0) as (I & _ & P & S).
  apply (final_up_to_length p0 evs K); [exact I | rewrite P; reflexivity |].
  rewrite S. cbn. lia.
Qed.

End IndexRange.

(** C1, on the two-step wizard: the user enters an amount, which shows the
    confirm step, and the confirm page calls [navigateToStep(2)]. The
    current step index is then 2, the length of the step sequence, and no
    step is shown. *)
Theorem index_reaches_length_of_steps :
  let c := session Sample.CONST Sample.lib Sample.onyx Sample.fromChat
             [AmountStepComplete "10"; ConfirmNavigateToStep 2] in
  len (steps (props c)) = 2
  /\ currentStepIndex (state (hooks c)) = 2
  /\ currentStep (props c) (state (hooks c)) = None.
Proof. vm_compute. repeat split. Qed.

(** ** Submission *)

Section Submission.

Variable CONST : Constants.
Variable onyx : Ref -> Iou.t.

(** X24: what [createTransaction] does, for every draft: without a comment it
    throws before it calls anything; with a comment it returns after
    exactly one call and changes no hook cell. The call is [splitBill]
    when the request has multiple participants and the report id of the
    route passes the number test; it is [splitBillAndOpenReport] when the
    request has multiple participants and the id does not pass; it is
    [requestMoney], on the report of the props and for the first selected
    participant, when the request has a single participant. *)
Theorem createTransaction_outcome
  (p : Props) (s : State) (selected : list Participant.t) (h : Hooks) :
  let reportID := JS.getOr (route_params_reportID p) "" in
  let currency := Iou.selectedCurrencyCode (iouOf onyx p) in
  match Iou.comment (iouOf onyx p) with
  | None =>
      createTransaction CONST onyx p s selected h = (Throw trimOfUndefined, h, [])
  | Some text =>
      exists c,
        createTransaction CONST onyx p s selected h = (Normal tt, h, [c])
        /\ match c with
           | SplitBill sel login a com cur locale rid =>
               hasMultipleParticipants p = true
               /\ REGEX_NUMBER_test CONST reportID = true
               /\ sel = selected /\ login = currentUser_login p /\ a = amount s
               /\ com = JS.trim text /\ cur = currency /\ locale = preferredLocale p
               /\ rid = reportID
           | SplitBillAndOpenReport sel login a com cur locale =>
               hasMultipleParticipants p = true
               /\ REGEX_NUMBER_test CONST reportID = false
               /\ sel = selected /\ login = currentUser_login p /\ a = amount s
               /\ com = JS.trim text /\ cur = currency /\ locale = preferredLocale p
           | RequestMoney r a cur login participant com =>
               hasMultipleParticipants p = false
               /\ r = report p
               /\ a = JS.Math_round (JS.mulString (amount s) 100)
               /\ cur = currency /\ login = currentUser_login p
               /\ participant = at_index selected 0
               /\ com = JS.trim text
           | _ => False
           end
  end.
Proof.
  cbv zeta. unfold createTransaction, bind, trimOf.
  destruct (Iou.comment (iouOf onyx p)) as [text |]; [| reflexivity].
  destruct (hasMultipleParticipants p);
    [destruct (REGEX_NUMBER_test CONST _) eqn:T |];
    cbn; eexists; (split; [reflexivity |]); cbn; rewrite ?T; repeat split.
Qed.

(** X25: what [sendMoney] does, for every draft and every payment type:
    without a comment it throws before it calls anything, whatever the
    type; with a comment it returns and changes no hook cell, after
    exactly one call, of the rail of the type and for the participant at
    index 0, when the type is one of the three it knows, and after no
    call otherwise. *)
Theorem sendMoney_outcome
  (p : Props) (s : State) (paymentMethodType : string) (h : Hooks) :
  match Iou.comment (iouOf onyx p) with
  | None =>
      sendMoney CONST onyx p s paymentMethodType h = (Throw trimOfUndefined, h, [])
  | Some text =>
      let expected (r : Report.t) (a : JS.Number) (cur : option string)
            (com login : string) (participant : option Participant.t) : Prop :=
        r = report p
        /\ a = JS.Math_round (JS.mulString (amount s) 100)
        /\ cur = Iou.selectedCurrencyCode (iouOf onyx p)
        /\ com = JS.trim text
        /\ login = currentUser_login p
        /\ participant = at_index (participants s) 0 in
      if recognized CONST paymentMethodType
      then exists c,
             sendMoney CONST onyx p s paymentMethodType h = (Normal tt, h, [c])
             /\ match c with
                | SendMoneyElsewhere r a cur com login participant =>
                    paymentMethodType = IOU_PAYMENT_TYPE_ELSEWHERE CONST
                    /\ expected r a cur com login participant
                | SendMoneyViaPaypal r a cur com login participant =>
                    paymentMethodType = IOU_PAYMENT_TYPE_PAYPAL_ME CONST
                    /\ expected r a cur com login participant
                | SendMoneyWithWallet r a cur com login participant =>
                    paymentMethodType = IOU_PAYMENT_TYPE_EXPENSIFY CONST
                    /\ expected r a cur com login participant
                | _ => False
                end
      else sendMoney CONST onyx p s paymentMethodType h = (Normal tt, h, [])
  end.
Proof.
  unfold recognized, sendMoney, bind, trimOf.
  destruct (Iou.comment (iouOf onyx p)) as [text |]; [| reflexivity].
  cbv zeta.
  destruct (String.eqb_spec paymentMethodType (IOU_PAYMENT_TYPE_ELSEWHERE CONST));
    [| destruct (String.eqb_spec paymentMethodType (IOU_PAYMENT_TYPE_PAYPAL_ME CONST));
       [| destruct (String.eqb_spec paymentMethodType
                      (IOU_PAYMENT_TYPE_EXPENSIFY CONST))]];
    cbn; try reflexivity; eexists; (split; [reflexivity |]);
    cbn; repeat split; assumption.
Qed.

(** C6: with the amount "12.345", the conversion to minor units gives
    1235; every call of [sendMoney] that takes an amount takes 1235, and so
    does the [requestMoney] call of [createTransaction] for a single
    participant. (Without a comment in the draft neither of the two makes
    a call.) *)
Theorem minor_units_of_12_345
  (p : Props) (s : State) (paymentMethodType : string)
  (selected : list Participant.t) (h : Hooks) :
  amount s = "12.345" ->
  JS.toZ (JS.Math_round (JS.mulString (amount s) 100)) = Some 1235
  /\ map minorUnits (callsOf (sendMoney CONST onyx p s paymentMethodType) h)
     = match Iou.comment (iouOf onyx p) with
       | Some _ => if recognized CONST paymentMethodType then [Some 1235] else []
       | None => []
       end
  /\ (hasMultipleParticipants p = false ->
      map minorUnits (callsOf (createTransaction CONST onyx p s selected) h)
      = match Iou.comment (iouOf onyx p) with
        | Some _ => [Some 1235]
        | None => []
        end).
Proof.
  intros A.
  assert (R : JS.toZ (JS.Math_round (JS.mulString (amount s) 100)) = Some 1235)
    by (rewrite A; vm_compute; reflexivity).
  split; [exact R |]. split.
  - unfold recognized, sendMoney, callsOf, bind, trimOf.
    destruct (Iou.comment (iouOf onyx p)); [| reflexivity]. cbn.
    repeat match goal with
      | |- context [String.eqb ?a ?b] => destruct (String.eqb a b)
      end; cbn; rewrite ?R; reflexivity.
  - intros Single. unfold createTransaction, callsOf, bind, trimOf.
    destruct (Iou.comment (iouOf onyx p)); [| reflexivity].
    rewrite Single. cbn. rewrite R. reflexivity.
Qed.

End Submission.

Lemma minor_units_of_12_345_witness :
  let s := Sample.someState 0 1 "12.345" in
  let h := Sample.someHooks 0 1 "12.345" in
  map minorUnits
    (callsOf (sendMoney Sample.CONST Sample.onyx Sample.fromChat s "Elsewhere") h)
  = [Some 1235]
  /\ map minorUnits
       (callsOf (createTransaction Sample.CONST Sample.onyx Sample.fromChat s
                   (participants s)) h)
     = [Some 1235].
Proof.
  cbv zeta.
  destruct (minor_units_of_12_345 Sample.CONST Sample.onyx Sample.fromChat
              (Sample.someState 0 1 "12.345") "Elsewhere"
              (participants (Sample.someState 0 1 "12.345"))
              (Sample.someHooks 0 1 "12.345"))
    as (_ & S & C); [reflexivity |].
  split; [exact S | apply C; reflexivity].
Defined.



(** ** The direction the view receives *)

Section DirectionMemo.

Variable CONST : Constants.
Variable lib : Collaborators.
Variable onyx : Ref -> Iou.t.

(** The direction depends on the props through the step sequence and on
    the state through the two indices. *)
Lemma direction_ext (p q : Props) (s t : State) :
  steps p = steps q ->
  previousStepIndex s = previousStepIndex t ->
  currentStepIndex s = currentStepIndex t ->
  direction p s = direction q t.
Proof.
  intros E1 E2 E3. unfold direction. rewrite E1, E2, E3. reflexivity.
Qed.

Lemma useMemoDirection_fresh (q p : Props) (t s : State) :
  steps q = steps p ->
  useMemoDirection (Some (computeDirection q t)) p s = computeDirection p s.
Proof.
  intros E. unfold useMemoDirection, computeDirection.
  cbn [memo_previousStepIndex memo_currentStepIndex].
  destruct (Z.eqb_spec (previousStepIndex t) (previousStepIndex s)) as [E1 | _];
    [| reflexivity].
  destruct (Z.eqb_spec (currentStepIndex t) (currentStepIndex s)) as [E2 | _];
    [| reflexivity].
  cbn [andb]. rewrite E1, E2. f_equal. apply direction_ext; assumption.
Qed.

Lemma final_direction_fresh (p0 : Props) (evs : list Event) :
  keepsSteps p0 evs ->
  forall c,
    consistent onyx c ->
    steps (props c) = steps p0 ->
    directionMemo c = computeDirection (props c) (state (hooks c)) ->
    let c' := final CONST onyx c evs in
    directionMemo c' = computeDirection (props c') (state (hooks c')).
Proof.
  induction 1 as [| ev evs K _ IH]; intros c I S D; [exact D |].
  cbv zeta in *. unfold final in *. cbn [run].
  specialize (IH (after (step CONST onyx c ev))).
  destruct (run CONST onyx (after (step CONST onyx c ev)) evs) as [c' os].
  cbn [fst] in *.
  destruct (step_run CONST onyx c ev I) as (P & H & _ & _ & M & I').
  assert (S' : steps (props (after (step CONST onyx c ev))) = steps p0).
  { rewrite P. destruct ev; assumption. }
  apply IH; [exact I' | exact S' |].
  rewrite M, H, D. cbn [state]. rewrite <- P.
  rewrite (useMemoDirection_fresh (props c)) by congruence.
  apply useMemoDirection_fresh. reflexivity.
Qed.

(** While the step sequence stays the same, the memo holds the direction
    of the two indices the component has. *)
Lemma session_direction_fresh (p0 : Props) (evs : list Event) :
  keepsSteps p0 evs ->
  let c := session CONST lib onyx p0 evs in
  memo_direction (directionMemo c) = direction (props c) (state (hooks c)).
Proof.
  intros K. cbv zeta.
  destruct (mount_consistent CONST lib onyx p0) as (I & _ & P & S).
  unfold session.
  rewrite (final_direction_fresh p0 evs K (fst (mount CONST lib onyx p0)) I).
  - reflexivity.
  - rewrite P. reflexivity.
  - unfold mount, renderPass. rewrite mount_effects_run.
    cbn [settle hooks state]. rewrite Z.eqb_refl. reflexivity.
Qed.

Lemma final_keeps_steps (p0 : Props) (evs : list Event) :
  keepsSteps p0 evs ->
  forall c,
    consistent onyx c ->
    steps (props c) = steps p0 ->
    steps (props (final CONST onyx c evs)) = steps p0.
Proof.
  induction 1 as [| ev evs K _ IH]; intros c I S; [exact S |].
  unfold final in *. cbn [run].
  specialize (IH (after (step CONST onyx c ev))).
  destruct (run CONST onyx (after (step CONST onyx c ev)) evs) as [c' os].
  cbn [fst] in *.
  destruct (step_run CONST onyx c ev I) as (P & _ & _ & _ & _ & I').
  apply IH; [exact I' |]. rewrite P. destruct ev; assumption.
Qed.

Lemma session_keeps_steps (p0 : Props) (evs : list Event) :
  keepsSteps p0 evs ->
  steps (props (session CONST lib onyx p0 evs)) = steps p0.
Proof.
  intros K. destruct (mount_consistent CONST lib onyx p0) as (I & _ & P & _).
  unfold session. apply (final_keeps_steps p0 evs K); [exact I |].
  rewrite P. reflexivity.
Qed.

(** X26: while the step sequence stays the one of the mount, the
    direction the view receives follows the two indices the component
    has: with 'in' for forward and 'out' for backward, it is 'in' from the
    confirm index to the amount index, 'out' from the amount index to the
    confirm index, [null] when the two indices are equal, and for every
    other pair 'in' when the index grew and 'out' when it shrank. *)
Theorem derived_direction_while_steps_stay (p0 : Props) (evs : list Event) :
  keepsSteps p0 evs ->
  let c := session CONST lib onyx p0 evs in
  let s := state (hooks c) in
  let received := memo_direction (directionMemo c) in
  let amountIndex := Underscore.indexOf (steps (props c)) Steps.IOUAmount in
  let confirmIndex := Underscore.indexOf (steps (props c)) Steps.IOUConfirm in
  let special :=
    (previousStepIndex s = confirmIndex /\ currentStepIndex s = amountIndex)
    \/ (previousStepIndex s = amountIndex /\ currentStepIndex s = confirmIndex) in
  steps (props c) = steps p0
  /\ (previousStepIndex s = confirmIndex -> currentStepIndex s = amountIndex ->
      received = Str "in")
  /\ (previousStepIndex s = amountIndex -> currentStepIndex s = confirmIndex ->
      received = Str "out")
  /\ (previousStepIndex s = currentStepIndex s -> received = Null)
  /\ (~ special -> previousStepIndex s < currentStepIndex s ->
      received = Str "in")
  /\ (~ special -> previousStepIndex s > currentStepIndex s ->
      received = Str "out").
Proof.
  intros K. cbv zeta. rewrite (session_direction_fresh p0 evs K).
  split; [| apply direction_spec].
  apply session_keeps_steps. exact K.
Qed.

End DirectionMemo.

Lemma derived_direction_while_steps_stay_witness :
  let c := session Sample.CONST Sample.lib Sample.onyx Sample.fromChat
             [AmountStepComplete "10";
              NewProps (Sample.propsWith (Some ["you@example.com"]) false
                          (Some "42") 1%nat)] in
  steps (props c) = [Steps.IOUAmount; Steps.IOUConfirm]
  /\ previousStepIndex (state (hooks c)) = 0
  /\ currentStepIndex (state (hooks c)) = 1
  /\ memo_direction (directionMemo c) = Str "out".
Proof.
  cbv zeta.
  destruct (derived_direction_while_steps_stay Sample.CONST Sample.lib Sample.onyx
              Sample.fromChat
              [AmountStepComplete "10";
               NewProps (Sample.propsWith (Some ["you@example.com"]) false
                           (Some "42") 1%nat)])
    as (S & _ & D & _).
  - repeat constructor.
  - split; [exact S |]. split; [reflexivity |]. split; [reflexivity |].
    apply D; reflexivity.
Defined.

(** C8, on a session in which the step sequence changes: the wizard opens
    with three steps, the user enters an amount, which moves from index 0
    to index 1, and the report of the props then gets a participant, which
    leaves the two steps amount and confirm. The pair of indices is now
    (amount index, confirm index), for which the callback gives 'out'
    (backward), but the memo depends on the two indices only, does not run
    the callback, and the view receives 'in' (forward). *)
Theorem derived_direction_stale_after_new_steps :
  let q := Sample.propsWith (Some ["you@example.com"]) false None 0%nat in
  let c := session Sample.CONST Sample.lib Sample.onyx Sample.fromMenu
             [AmountStepComplete "10"; NewProps q] in
  let s := state (hooks c) in
  steps Sample.fromMenu = [Steps.IOUAmount; Steps.IOUParticipants; Steps.IOUConfirm]
  /\ steps (props c) = [Steps.IOUAmount; Steps.IOUConfirm]
  /\ previousStepIndex s = Underscore.indexOf (steps (props c)) Steps.IOUAmount
  /\ currentStepIndex s = Underscore.indexOf (steps (props c)) Steps.IOUConfirm
  /\ direction (props c) s = Str "out"
  /\ memo_direction (directionMemo c) = Str "in".
Proof. vm_compute. repeat split. Qed.

(** * Further properties of the component *)

(** ** The step sequence and the pages *)

Lemma at_index_first (p : Props) : at_index (steps p) 0 = Some Steps.IOUAmount.
Proof. destruct (steps_cases p) as [E | E]; rewrite E; reflexivity. Qed.

Lemma at_index_last (p : Props) :
  at_index (steps p) (len (steps p) - 1) = Some Steps.IOUConfirm.
Proof. destruct (steps_cases p) as [E | E]; rewrite E; reflexivity. Qed.

(** X1: whatever the report, the amount step is the first step and the
    confirm step the last one, [_.indexOf] finds them there, and the
    participants step is part of the sequence exactly when the report
    brings no participants. *)
Theorem steps_first_and_last (p : Props) :
  at_index (steps p) 0 = Some Steps.IOUAmount
  /\ at_index (steps p) (len (steps p) - 1) = Some Steps.IOUConfirm
  /\ Underscore.indexOf (steps p) Steps.IOUAmount = 0
  /\ Underscore.indexOf (steps p) Steps.IOUConfirm = len (steps p) - 1
  /\ (In Steps.IOUParticipants (steps p) <-> reportParticipants p = []).
Proof.
  split; [| split; [| split; [| split]]].
  - apply at_index_first.
  - apply at_index_last.
  - apply amountIndex_is_first.
  - apply confirmIndex_is_last.
  - unfold steps, len. destruct (reportParticipants p) as [| x l]; cbn.
    + split; [reflexivity | intros _; right; left; reflexivity].
    + split; [| discriminate].
      intros [E | [E | []]]; discriminate E.
Qed.

Lemma pageShown_iff (p : Props) (s : State) (step : string) :
  pageShown true p s step = true <-> currentStep p s = Some step.
Proof.
  unfold pageShown. cbn [andb]. destruct (currentStep p s) as [x |].
  - destruct (String.eqb_spec x step); split; congruence.
  - split; discriminate.
Qed.

Lemma pageShown_ended (ended : bool) (p : Props) (s : State) (step : string) :
  pageShown ended p s step = ended && pageShown true p s step.
Proof. destruct ended; reflexivity. Qed.

Lemma headerShown_ended (ended : bool) (p : Props) (s : State) :
  headerShown ended p s = ended && headerShown true p s.
Proof. destruct ended; reflexivity. Qed.

Lemma currentStep_in_range (p : Props) (s : State) :
  (exists step, currentStep p s = Some step)
  <-> 0 <= currentStepIndex s < len (steps p).
Proof.
  unfold currentStep, at_index, len.
  destruct (Z.ltb_spec (currentStepIndex s) 0) as [N | N].
  - split; [intros [x E]; discriminate E | lia].
  - split.
    + intros [x E]. assert (nth_error (steps p) (Z.to_nat (currentStepIndex s)) <> None)
        as L by congruence.
      apply nth_error_Some in L. lia.
    + intros B.
      destruct (nth_error (steps p) (Z.to_nat (currentStepIndex s))) eqn:E;
        [eauto |].
      apply nth_error_None in E. lia.
Qed.

Lemma headerShown_iff (p : Props) (s : State) :
  headerShown true p s = true <-> 0 <= currentStepIndex s < len (steps p).
Proof.
  rewrite <- currentStep_in_range. unfold headerShown, pageShown. cbn [andb].
  destruct (currentStep p s) as [x |] eqn:E.
  - split; [eauto | intros _].
    assert (In x (steps p)) as IN.
    { unfold currentStep, at_index in E.
      destruct (currentStepIndex s <? 0); [discriminate |].
      eapply nth_error_In, E. }
    destruct (steps_cases p) as [S | S]; rewrite S in IN; cbn in IN;
      intuition (subst; reflexivity).
  - split; [discriminate | intros [x X]; discriminate X].
Qed.

(** X2: the view never shows two pages at once. It shows a page, and with
    it the header and the back button, exactly when the screen transition
    has ended and the current index is an index of the step sequence; for
    any other index, the length of the sequence included, it shows
    nothing, and while the transition has not ended it shows the loading
    indicator and no page. *)
Theorem one_page_at_most (ended : bool) (p : Props) (s : State) (a b : string) :
  (pageShown ended p s a = true -> pageShown ended p s b = true -> a = b)
  /\ (headerShown ended p s = true
      <-> ended = true /\ 0 <= currentStepIndex s < len (steps p))
  /\ (pageShown ended p s a = true
      -> ended = true /\ 0 <= currentStepIndex s < len (steps p))
  /\ (loadingShown ended = true
      -> headerShown ended p s = false /\ pageShown ended p s a = false).
Proof.
  split; [| split; [| split]].
  - rewrite (pageShown_ended ended p s a), (pageShown_ended ended p s b).
    destruct ended; cbn [andb]; [| discriminate].
    rewrite !pageShown_iff. congruence.
  - rewrite headerShown_ended. destruct ended; cbn [andb].
    + rewrite headerShown_iff. tauto.
    + split; [discriminate | intros [E _]; discriminate E].
  - rewrite pageShown_ended. destruct ended; cbn [andb]; [| discriminate].
    rewrite pageShown_iff. intros E. split; [reflexivity |].
    apply currentStep_in_range. eauto.
  - unfold loadingShown. destruct ended; [discriminate |]. split; reflexivity.
Qed.

Lemma one_page_at_most_witness :
  Steps.IOUConfirm = Steps.IOUConfirm
  /\ 0 <= currentStepIndex (Sample.someState 1 2 "10") < len (steps Sample.fromMenu)
  /\ pageShown false Sample.fromMenu (Sample.someState 1 2 "10") Steps.IOUConfirm
     = false.
Proof.
  destruct (one_page_at_most true Sample.fromMenu (Sample.someState 1 2 "10")
              Steps.IOUConfirm Steps.IOUConfirm) as (U & _ & R & _).
  destruct (one_page_at_most false Sample.fromMenu (Sample.someState 1 2 "10")
              Steps.IOUConfirm Steps.IOUConfirm) as (_ & _ & _ & L).
  split; [apply U; reflexivity |].
  split; [apply R; reflexivity | apply L; reflexivity].
Defined.

(** ** The back button *)

(** X3: the back button is shown exactly when pressing it moves: with a
    current index above 0 [navigateToPreviousStep] stores the current index
    as the previous one and goes one index back; otherwise it calls nothing
    and leaves the hook cells alone. *)
Theorem back_button_shown_iff_it_moves (s : State) (h : Hooks) :
  (shouldShowBackButton s = true ->
   navigateToPreviousStep s h =
     (Normal tt, moved h (currentStepIndex s) (currentStepIndex s - 1),
      [SetPreviousStepIndex (currentStepIndex s);
       SetCurrentStepIndex (currentStepIndex s - 1)]))
  /\ (shouldShowBackButton s = false -> navigateToPreviousStep s h = (Normal tt, h, [])).
Proof.
  unfold shouldShowBackButton. rewrite navigateToPreviousStep_run.
  split; intros E; split_tests; try reflexivity; lia.
Qed.

Lemma back_button_shown_iff_it_moves_witness :
  navigateToPreviousStep (Sample.someState 0 1 "10") (Sample.someHooks 0 1 "10")
  = (Normal tt, Sample.someHooks 1 0 "10", [SetPreviousStepIndex 1; SetCurrentStepIndex 0])
  /\ navigateToPreviousStep (Sample.someState 0 0 "") (Sample.someHooks 0 0 "")
     = (Normal tt, Sample.someHooks 0 0 "", []).
Proof.
  split.
  - destruct (back_button_shown_iff_it_moves (Sample.someState 0 1 "10")
                (Sample.someHooks 0 1 "10")) as (H & _).
    apply H. reflexivity.
  - destruct (back_button_shown_iff_it_moves (Sample.someState 0 0 "")
                (Sample.someHooks 0 0 "")) as (_ & H).
    apply H. reflexivity.
Defined.

(** X4: going back and then forward again returns to the step one came
    from. From an index of the step sequence other than the first,
    [navigateToPreviousStep] followed, in the next render, by
    [navigateToNextStep] leaves the current index as it was, with the
    index before it as the previous one. *)
Theorem back_then_next_returns (p : Props) (h : Hooks) :
  let s := state h in
  let h1 := hooksAfter (navigateToPreviousStep s) h in
  let h2 := hooksAfter (navigateToNextStep p (state h1)) h1 in
  0 < currentStepIndex s <= len (steps p) - 1 ->
  h2 = moved h (currentStepIndex s - 1) (currentStepIndex s).
Proof.
  cbv zeta. intros B. unfold hooksAfter.
  rewrite navigateToPreviousStep_run.
  destruct (Z.leb_spec (currentStepIndex (state h)) 0); [lia |].
  cbn [fst snd]. rewrite navigateToNextStep_run.
  cbn [moved state withIndices previousStepIndex currentStepIndex].
  destruct (Z.geb_spec (currentStepIndex (state h) - 1) (len (steps p) - 1)); [lia |].
  cbn [fst snd]. unfold moved, withIndices. cbn.
  destruct (Z.eqb_spec (currentStepIndex (state h)) (len (steps p) - 1)) as [E | E].
  - rewrite <- E. reflexivity.
  - replace (currentStepIndex (state h) - 1 + 1) with (currentStepIndex (state h))
      by lia.
    reflexivity.
Qed.

Lemma back_then_next_returns_witness :
  let h := Sample.someHooks 1 2 "10" in
  let h1 := hooksAfter (navigateToPreviousStep (state h)) h in
  hooksAfter (navigateToNextStep Sample.fromMenu (state h1)) h1
  = Sample.someHooks 1 2 "10".
Proof.
  cbv zeta.
  apply (back_then_next_returns Sample.fromMenu (Sample.someHooks 1 2 "10")).
  vm_compute. split; [reflexivity | discriminate].
Defined.

(** ** Renders after a user event *)

Section UserEvents.

Variable CONST : Constants.
Variable lib : Collaborators.
Variable onyx : Ref -> Iou.t.

Lemma fallingEdge_same_props (p : Props) : fallingEdge onyx p p = false.
Proof. unfold fallingEdge. destruct (JS.truthy (creatingFlag onyx p)); reflexivity. Qed.

Lemma cameBackOnline_same_props (p : Props) : cameBackOnline p p = false.
Proof. unfold cameBackOnline. destruct (network_isOffline p); reflexivity. Qed.

(** After an event of the user the component has the props it had, the
    hook cells the handler left, and the effects called nothing. *)
Lemma step_user_event (c : Component) (ev : Event) :
  consistent onyx c ->
  isNewProps ev = false ->
  let run := handle CONST onyx (props c) (state (hooks c)) ev in
  step CONST onyx c ev =
    {| after := {| props := props c;
                   hooks := hooksAfter run (hooks c);
                   directionMemo :=
                     useMemoDirection (Some (directionMemo c)) (props c)
                       (state (hooksAfter run (hooks c))) |};
       handlerCompletion := completionOf run (hooks c);
       handlerCalls := callsOf run (hooks c);
       effectCalls := [] |}.
Proof.
  intros I U. cbv zeta.
  assert (HR : handlerCompletion (step CONST onyx c ev)
               = completionOf (handle CONST onyx (props c) (state (hooks c)) ev)
                   (hooks c)).
  { unfold step, completionOf.
    destruct (handle CONST onyx (props c) (state (hooks c)) ev (hooks c))
      as [[r h] calls].
    destruct (update onyx c _ h). reflexivity. }
  destruct (step_run CONST onyx c ev I) as (P & H & HC & EC & M & _).
  pose proof (handle_refs CONST onyx (props c) (state (hooks c)) ev (hooks c)) as R.
  assert (E : match ev with NewProps q => q | _ => props c end = props c)
    by (destruct ev; [discriminate U | reflexivity ..]).
  rewrite E in *. clear E.
  rewrite settledState_same_props in H, M.
  rewrite fallingEdge_same_props, cameBackOnline_same_props in EC.
  rewrite useMemoDirection_keep in M by apply useMemoDirection_deps.
  destruct I as (I & _). rewrite <- I, <- R in H.
  destruct (step CONST onyx c ev) as [[p' h' m'] hc ec]. cbn in *.
  subst. f_equal. f_equal.
  destruct (hooksAfter _ (hooks c)); reflexivity.
Qed.

Lemma final_app (c : Component) (evs1 evs2 : list Event) :
  final CONST onyx c (evs1 ++ evs2)
  = final CONST onyx (final CONST onyx c evs1) evs2.
Proof.
  revert c. induction evs1 as [| ev evs1 IH]; intros c; [reflexivity |].
  unfold final in *. cbn [app run].
  specialize (IH (after (step CONST onyx c ev))).
  destruct (run CONST onyx (after (step CONST onyx c ev)) (evs1 ++ evs2)).
  destruct (run CONST onyx (after (step CONST onyx c ev)) evs1).
  exact IH.
Qed.

Lemma final_cons (c : Component) (ev : Event) (evs : list Event) :
  final CONST onyx c (ev :: evs)
  = final CONST onyx (after (step CONST onyx c ev)) evs.
Proof.
  unfold final. cbn [run].
  destruct (run CONST onyx (after (step CONST onyx c ev)) evs). reflexivity.
Qed.

Lemma step_consistent (c : Component) (ev : Event) :
  consistent onyx c -> consistent onyx (after (step CONST onyx c ev)).
Proof. intros I. apply (step_run CONST onyx c ev I). Qed.

End UserEvents.

(** ** Editing from the confirm page *)

Lemma pageShown_confirm (p : Props) (s : State) :
  currentStepIndex s = len (steps p) - 1 -> pageShown true p s Steps.IOUConfirm = true.
Proof.
  intros E. apply pageShown_iff. unfold currentStep. rewrite E.
  apply at_index_last.
Qed.

Lemma pageShown_amount (p : Props) (s : State) :
  currentStepIndex s = 0 -> pageShown true p s Steps.IOUAmount = true.
Proof.
  intros E. apply pageShown_iff. unfold currentStep. rewrite E.
  apply at_index_first.
Qed.

(** On the confirm index the confirm page is shown as soon as the screen
    transition has ended, on the index 0 the amount page. *)
Lemma pageShown_confirm_ended (p : Props) (s : State) :
  currentStepIndex s = len (steps p) - 1 ->
  forall ended, pageShown ended p s Steps.IOUConfirm = ended.
Proof.
  intros E ended. rewrite pageShown_ended, (pageShown_confirm p s E).
  apply andb_true_r.
Qed.

Lemma pageShown_amount_ended (p : Props) (s : State) :
  currentStepIndex s = 0 ->
  forall ended, pageShown ended p s Steps.IOUAmount = ended.
Proof.
  intros E ended. rewrite pageShown_ended, (pageShown_amount p s E).
  apply andb_true_r.
Qed.

Lemma direction_confirm_to_amount (p : Props) (s : State) :
  previousStepIndex s = len (steps p) - 1 -> currentStepIndex s = 0 ->
  direction p s = Str "in".
Proof.
  intros E1 E2. unfold direction.
  rewrite amountIndex_is_first, confirmIndex_is_last, E1, E2, !Z.eqb_refl.
  reflexivity.
Qed.

Lemma direction_amount_to_confirm (p : Props) (s : State) :
  previousStepIndex s = 0 -> currentStepIndex s = len (steps p) - 1 ->
  direction p s = Str "out".
Proof.
  intros E1 E2. pose proof (steps_length p). unfold direction.
  rewrite amountIndex_is_first, confirmIndex_is_last, E1, E2, !Z.eqb_refl.
  replace (0 =? len (steps p) - 1) with false by lia. reflexivity.
Qed.

Section Editing.

Variable CONST : Constants.
Variable lib : Collaborators.
Variable onyx : Ref -> Iou.t.
Variable translate : string -> string.

(** X5: editing the amount from the confirm page comes straight back. In
    any session that is on the confirm step, [navigateToStep(0)] shows the
    amount page, animated 'in', with the button that says save; completing
    the amount step then shows the confirm page again, animated 'out',
    with the new amount and the participants as they were, without
    passing the participants step. (A page is shown once the screen
    transition has ended.) *)
Theorem edit_amount_returns_to_confirm
  (p0 : Props) (evs : list Event) (value : string) :
  let c := session CONST lib onyx p0 evs in
  let last := len (steps (props c)) - 1 in
  let c1 := after (step CONST onyx c (ConfirmNavigateToStep 0)) in
  let c2 := after (step CONST onyx c1 (AmountStepComplete value)) in
  currentStepIndex (state (hooks c)) = last ->
  (state (hooks c1) = withIndices (state (hooks c)) last 0
   /\ (forall ended,
         pageShown ended (props c1) (state (hooks c1)) Steps.IOUAmount = ended)
   /\ memo_direction (directionMemo c1) = Str "in"
   /\ amountButtonText translate (props c1) (state (hooks c1))
      = translate "common.save")
  /\ (state (hooks c2) =
        {| previousStepIndex := 0;
           currentStepIndex := last;
           participants := participants (state (hooks c));
           amount := value |}
      /\ (forall ended,
            pageShown ended (props c2) (state (hooks c2)) Steps.IOUConfirm = ended)
      /\ memo_direction (directionMemo c2) = Str "out").
Proof.
  cbv zeta. intros E.
  pose proof (session_consistent CONST lib onyx p0 evs) as I.
  set (c := session CONST lib onyx p0 evs) in *.
  pose proof (steps_length (props c)) as L.
  pose proof (step_consistent CONST onyx c (ConfirmNavigateToStep 0) I) as I1.
  rewrite (step_user_event CONST onyx c (ConfirmNavigateToStep 0) I eq_refl) in *.
  cbn [after] in *.
  assert (H1 : hooksAfter (handle CONST onyx (props c) (state (hooks c))
                             (ConfirmNavigateToStep 0)) (hooks c)
               = moved (hooks c) (len (steps (props c)) - 1) 0).
  { unfold handle. rewrite (pageShown_confirm _ _ E).
    unfold hooksAfter. rewrite navigateToStep_run, E.
    replace ((0 <? 0) || (0 >? len (steps (props c)))
             || (len (steps (props c)) - 1 =? 0)) with false by lia.
    reflexivity. }
  rewrite H1 in *.
  set (c1 := {| props := props c; hooks := moved (hooks c) (len (steps (props c)) - 1) 0;
                directionMemo := _ |}) in *.
  assert (M1 : directionMemo c1
               = computeDirection (props c) (state (hooks c1))).
  { unfold c1. cbn [directionMemo hooks].
    apply useMemoDirection_recompute. destruct I as (_ & _ & I).
    rewrite I, E. cbn. lia. }
  split.
  - repeat split.
    + apply pageShown_amount_ended. reflexivity.
    + rewrite M1. apply direction_confirm_to_amount; reflexivity.
    + unfold amountButtonText. rewrite confirmIndex_is_last.
      cbn. rewrite Z.eqb_refl. reflexivity.
  - rewrite (step_user_event CONST onyx c1 (AmountStepComplete value) I1 eq_refl).
    cbn [after].
    assert (H2 : hooksAfter (handle CONST onyx (props c1) (state (hooks c1))
                               (AmountStepComplete value)) (hooks c1)
                 = {| state := {| previousStepIndex := 0;
                                  currentStepIndex := len (steps (props c)) - 1;
                                  participants := participants (state (hooks c));
                                  amount := value |};
                      refs := refs (hooks c) |}).
    { unfold handle. rewrite pageShown_amount by reflexivity.
      erewrite hooksAfter_bind by reflexivity. unfold hooksAfter.
      rewrite navigateToNextStep_run. cbn.
      replace (0 >=? len (steps (props c)) - 1) with false by lia.
      rewrite Z.eqb_refl. reflexivity. }
    rewrite H2. cbn [props hooks state directionMemo].
    repeat split.
    + apply pageShown_confirm_ended. reflexivity.
    + rewrite useMemoDirection_recompute.
      * apply direction_amount_to_confirm; reflexivity.
      * rewrite M1. cbn. lia.
Qed.

End Editing.

Lemma edit_amount_returns_to_confirm_witness :
  let c := session Sample.CONST Sample.lib Sample.onyx Sample.fromMenu
             [AmountStepComplete "10"; ParticipantsStepComplete] in
  let c1 := after (step Sample.CONST Sample.onyx c (ConfirmNavigateToStep 0)) in
  let c2 := after (step Sample.CONST Sample.onyx c1 (AmountStepComplete "12")) in
  currentStepIndex (state (hooks c)) = 2
  /\ currentStepIndex (state (hooks c2)) = 2
  /\ amount (state (hooks c2)) = "12"
  /\ memo_direction (directionMemo c2) = Str "out".
Proof.
  cbv zeta.
  destruct (edit_amount_returns_to_confirm Sample.CONST Sample.lib Sample.onyx
              (fun key => key) Sample.fromMenu
              [AmountStepComplete "10"; ParticipantsStepComplete] "12")
    as (_ & S & _ & D); [reflexivity |].
  split; [reflexivity |].
  rewrite S. split; [reflexivity | split; [reflexivity | exact D]].
Defined.

(** ** The direction is always decided *)

Lemma direction_null_same_iff (p : Props) (s : State) :
  (direction p s = Str "in" \/ direction p s = Str "out" \/ direction p s = Null)
  /\ (direction p s = Null -> previousStepIndex s = currentStepIndex s).
Proof.
  pose proof (steps_length p) as L. unfold direction.
  rewrite amountIndex_is_first, confirmIndex_is_last.
  split_tests; cbn; repeat split; intros;
    first [discriminate | lia | tauto | congruence].
Qed.

(** X6: for integer indices the direction is 'in', 'out' or [null], never
    [undefined], and it is [null] exactly when the two indices are equal:
    every move to another index is animated. *)
Theorem direction_null_iff_same_index (p : Props) (s : State) :
  (direction p s = Str "in" \/ direction p s = Str "out" \/ direction p s = Null)
  /\ direction p s <> Undefined
  /\ (direction p s = Null <-> previousStepIndex s = currentStepIndex s).
Proof.
  pose proof (steps_length p) as L. unfold direction.
  rewrite amountIndex_is_first, confirmIndex_is_last.
  split_tests; cbn; repeat split; intros;
    first [discriminate | lia | tauto | congruence].
Qed.

Lemma direction_null_same (p : Props) (s : State) :
  previousStepIndex s = currentStepIndex s -> direction p s = Null.
Proof.
  intros E. pose proof (steps_length p) as L. unfold direction.
  rewrite amountIndex_is_first, confirmIndex_is_last, E.
  split_tests; cbn; first [reflexivity | lia].
Qed.

(** ** What the effects call, and when *)

Section Effects.

Variable CONST : Constants.
Variable lib : Collaborators.
Variable onyx : Ref -> Iou.t.

Lemma forallb_index_setter (l : list Call) :
  forallb isIndexSetter l = true -> forallb isHandlerCall l = true.
Proof.
  rewrite !forallb_forall. intros H c IN. specialize (H c IN).
  destruct c; (discriminate H || reflexivity).
Qed.

(** The calls of a sequence: the ones of the first command and, when it
    returned, the ones of the rest. *)
Lemma callsOf_bind {A B : Type} (c : M A) (k : A -> M B) (h : Hooks) :
  callsOf (bind c k) h
  = callsOf c h
    ++ match completionOf c h with
       | Normal a => callsOf (k a) (hooksAfter c h)
       | Throw _ => []
       end.
Proof.
  unfold callsOf, hooksAfter, completionOf, bind.
  destruct (c h) as [[r h1] l1]. cbn. destruct r as [a | e].
  - destruct (k a h1) as [[b h2] l2]. reflexivity.
  - cbn. symmetry. apply app_nil_r.
Qed.

Lemma completionOf_bind {A B : Type} (c : M A) (k : A -> M B) (h : Hooks) :
  completionOf (bind c k) h
  = match completionOf c h with
    | Normal a => completionOf (k a) (hooksAfter c h)
    | Throw e => Throw e
    end.
Proof.
  unfold hooksAfter, completionOf, bind.
  destruct (c h) as [[r h1] l1]. cbn. destruct r as [a | e]; [| reflexivity].
  destruct (k a h1) as [[b h2] l2]. reflexivity.
Qed.

Lemma createTransaction_calls (p : Props) (s : State)
  (sel : list Participant.t) (h : Hooks) :
  forallb isHandlerCall (callsOf (createTransaction CONST onyx p s sel) h) = true
  /\ List.length (callsOf (createTransaction CONST onyx p s sel) h)
     = (match Iou.comment (iouOf onyx p) with Some _ => 1 | None => 0 end)%nat
  /\ completionOf (createTransaction CONST onyx p s sel) h
     = match Iou.comment (iouOf onyx p) with
       | Some _ => Normal tt
       | None => Throw trimOfUndefined
       end.
Proof.
  unfold createTransaction, callsOf, completionOf, bind, trimOf.
  destruct (Iou.comment (iouOf onyx p)); [| repeat split]. cbn.
  destruct (hasMultipleParticipants p), (REGEX_NUMBER_test CONST _);
    repeat split.
Qed.

Lemma sendMoney_calls (p : Props) (s : State) (m : string) (h : Hooks) :
  forallb isHandlerCall (callsOf (sendMoney CONST onyx p s m) h) = true.
Proof.
  unfold sendMoney, callsOf, bind, trimOf.
  destruct (Iou.comment (iouOf onyx p)); [| reflexivity]. cbn.
  repeat match goal with |- context [String.eqb ?a ?b] => destruct (String.eqb a b) end;
    reflexivity.
Qed.

(** A handler calls setters, submitting actions and the scroll only. *)
Lemma handle_calls (p : Props) (s : State) (ev : Event) (h : Hooks) :
  forallb isHandlerCall (callsOf (handle CONST onyx p s ev) h) = true.
Proof.
  destruct ev; unfold handle;
    try match goal with |- context [if ?b then _ else _] => destruct b end;
    try reflexivity.
  - apply forallb_index_setter, navigateToPreviousStep_frame.
  - rewrite callsOf_bind, forallb_app. apply andb_true_intro. split; [reflexivity |].
    apply forallb_index_setter, navigateToNextStep_frame.
  - apply forallb_index_setter, navigateToNextStep_frame.
  - rewrite callsOf_bind, forallb_app. apply andb_true_intro.
    split; [apply createTransaction_calls |].
    destruct (completionOf _ h); reflexivity.
  - rewrite callsOf_bind, forallb_app. apply andb_true_intro.
    split; [apply sendMoney_calls |].
    destruct (completionOf _ h); reflexivity.
  - apply forallb_index_setter, navigateToStep_frame.
Qed.

Lemma filter_none {A : Type} (f g : A -> bool) (l : list A) :
  (forall x, g x = true -> f x = false) ->
  forallb g l = true -> filter f l = [].
Proof.
  intros D. induction l as [| x l IH]; [reflexivity |]. cbn.
  intros H. apply andb_prop in H. destruct H as (G & H).
  rewrite (D x G). apply IH, H.
Qed.

Lemma completionCall_not_refresh (p : Props) :
  isRefresh (completionCall onyx p) = false
  /\ isDraftReset (completionCall onyx p) = false.
Proof.
  unfold completionCall. destruct (Iou.error (iouOf onyx p)) as [[|] |];
    split; reflexivity.
Qed.


(** X8: the shared draft is reset on mount and never again: mounting
    calls, in this order, the refresh, [setIOUSelectedCurrency] with the
    local currency of the user and [setMoneyRequestDescription] with the
    empty string; no later render and no handler calls either of the two
    setters of the draft, and no handler dismisses the modal. *)
Theorem draft_reset_on_mount_only
  (p0 : Props) (evs : list Event) (ev : Event) :
  let o := step CONST onyx (session CONST lib onyx p0 evs) ev in
  snd (mount CONST lib onyx p0) =
    [OpenMoneyRequestModalPage;
     SetIOUSelectedCurrency (currentUser_localCurrencyCode p0);
     SetMoneyRequestDescription ""]
  /\ filter isDraftReset (handlerCalls o ++ effectCalls o) = []
  /\ ~ In DismissModal (handlerCalls o).
Proof.
  cbv zeta.
  destruct (mount_consistent CONST lib onyx p0) as (_ & M & _).
  destruct (step_run CONST onyx _ ev (session_consistent CONST lib onyx p0 evs))
    as (_ & _ & HC & EC & _).
  rewrite M, HC, EC. split; [reflexivity |]. split.
  - rewrite filter_app.
    rewrite (filter_none isDraftReset isHandlerCall);
      [| intros x; destruct x; (discriminate || reflexivity) | apply handle_calls].
    rewrite filter_app.
    destruct (fallingEdge onyx _ _); destruct (cameBackOnline _ _); cbn;
      rewrite ?(proj2 (completionCall_not_refresh _)); reflexivity.
  - intros IN.
    pose proof (handle_calls (props (session CONST lib onyx p0 evs))
                  (state (hooks (session CONST lib onyx p0 evs))) ev
                  (hooks (session CONST lib onyx p0 evs))) as H.
    rewrite forallb_forall in H. specialize (H _ IN). discriminate H.
Qed.

(** X9: after every render the two refs hold the in-flight flag and the
    offline flag of the props of that render, whatever events came before. *)
Theorem refs_hold_last_render (p0 : Props) (evs : list Event) :
  let c := session CONST lib onyx p0 evs in
  prevCreatingIOUTransactionStatusRef (refs (hooks c))
  = Iou.creatingIOUTransaction (onyx (iou (props c)))
  /\ prevNetworkStatusRef (refs (hooks c)) = network_isOffline (props c).
Proof.
  cbv zeta. destruct (session_consistent CONST lib onyx p0 evs) as (R & _).
  rewrite R. split; reflexivity.
Qed.

(** X10: a render with the props and the state of the render before
    changes nothing and calls nothing. *)
Theorem rerender_changes_nothing (p0 : Props) (evs : list Event) :
  let c := session CONST lib onyx p0 evs in
  update onyx c (props c) (hooks c) = (c, []).
Proof.
  cbv zeta.
  pose proof (session_consistent CONST lib onyx p0 evs) as I.
  set (c := session CONST lib onyx p0 evs) in *.
  pose proof (update_run onyx c (props c) (hooks c) (proj1 I)) as U.
  destruct (update onyx c (props c) (hooks c)) as [c' calls].
  destruct U as (P & H & C & M & _).
  rewrite settledState_same_props in H, M.
  rewrite fallingEdge_same_props, cameBackOnline_same_props in C.
  destruct I as (R & D1 & D2).
  rewrite !(useMemoDirection_keep _ _ _ D1 D2) in M.
  rewrite <- R in H.
  destruct c' as [p' h' m'], c as [p h m]. cbn in *. subst.
  f_equal. f_equal. destruct h; reflexivity.
Qed.

(** X11: the direction is computed anew only when one of the two indices
    changes. A change of the props that does not reset the current index
    leaves the state and the direction the view receives as they were,
    also when the new props bring another step sequence. *)
Theorem direction_survives_new_props
  (p0 : Props) (evs : list Event) (q : Props) :
  let c := session CONST lib onyx p0 evs in
  let c' := after (step CONST onyx c (NewProps q)) in
  fallingEdge onyx (props c) q && JS.truthy (Iou.error (iouOf onyx q)) = false ->
  props c' = q
  /\ state (hooks c') = state (hooks c)
  /\ directionMemo c' = directionMemo c.
Proof.
  cbv zeta. intros F.
  pose proof (session_consistent CONST lib onyx p0 evs) as I.
  destruct (step_run CONST onyx _ (NewProps q) I) as (P & H & _ & _ & M & _).
  cbn [handle] in H, M. unfold hooksAfter, skip, ret in H, M. cbn [fst snd] in H, M.
  unfold settledState in H, M. rewrite F in H, M.
  destruct I as (_ & D1 & D2).
  rewrite !(useMemoDirection_keep _ _ _ D1 D2) in M.
  rewrite H. auto.
Qed.

(** X12: mounting opens on the amount step, without animation and without
    back button: both indices are 0, the amount is empty, the
    participants are the ones of the report, and the direction is [null].
    Until the screen transition has ended the view shows the loading
    indicator and no page; from then on it shows the amount page. *)
Theorem mount_opens_amount_page (p : Props) :
  let c := fst (mount CONST lib onyx p) in
  props c = p
  /\ state (hooks c) = initialState CONST lib p
  /\ (forall ended,
        loadingShown ended = negb ended
        /\ pageShown ended p (state (hooks c)) Steps.IOUAmount = ended)
  /\ shouldShowBackButton (state (hooks c)) = false
  /\ memo_direction (directionMemo c) = Null.
Proof.
  cbv zeta.
  destruct (mount_consistent CONST lib onyx p) as (_ & _ & P & S).
  rewrite S. split; [assumption |]. split; [reflexivity |].
  split; [| split; [reflexivity |]].
  - intros ended. split; [reflexivity |].
    apply pageShown_amount_ended. reflexivity.
  - unfold mount, renderPass. rewrite mount_effects_run.
    cbn [settle hooks state]. rewrite Z.eqb_refl.
    cbn [fst directionMemo useMemoDirection computeDirection memo_direction].
    apply direction_null_same. reflexivity.
Qed.

End Effects.

Lemma direction_survives_new_props_witness :
  let c := session Sample.CONST Sample.lib Sample.onyx Sample.fromMenu
             [AmountStepComplete "10"] in
  let q := Sample.propsWith (Some ["you@example.com"]) false None 0%nat in
  let c' := after (step Sample.CONST Sample.onyx c (NewProps q)) in
  steps (props c') = [Steps.IOUAmount; Steps.IOUConfirm]
  /\ memo_direction (directionMemo c') = Str "in"
  /\ direction (props c') (state (hooks c')) = Str "out".
Proof.
  cbv zeta.
  destruct (direction_survives_new_props Sample.CONST Sample.lib Sample.onyx
              Sample.fromMenu [AmountStepComplete "10"]
              (Sample.propsWith (Some ["you@example.com"]) false None 0%nat))
    as (P & S & D); [reflexivity |].
  rewrite P, S, D. split; [reflexivity | split; reflexivity].
Defined.

(** ** Walking through the steps *)

Section Walk.

Variable CONST : Constants.
Variable lib : Collaborators.
Variable onyx : Ref -> Iou.t.

Lemma mount_run (p : Props) :
  fst (mount CONST lib onyx p) =
    {| props := p;
       hooks := {| state := initialState CONST lib p; refs := initialRefs onyx p |};
       directionMemo := computeDirection p (initialState CONST lib p) |}.
Proof.
  unfold mount, renderPass. rewrite mount_effects_run.
  cbn [settle hooks state]. rewrite Z.eqb_refl. reflexivity.
Qed.

(** The amount page is done: the amount is stored and the next step is
    shown, which is the step at index 1 unless the amount was edited from
    the confirm page. *)
Lemma amount_step_complete (c : Component) (value : string) :
  consistent onyx c ->
  currentStepIndex (state (hooks c)) = 0 ->
  previousStepIndex (state (hooks c)) <> len (steps (props c)) - 1 ->
  after (step CONST onyx c (AmountStepComplete value)) =
    {| props := props c;
       hooks := {| state := {| previousStepIndex := 0;
                               currentStepIndex := 1;
                               participants := participants (state (hooks c));
                               amount := value |};
                   refs := refs (hooks c) |};
       directionMemo :=
         computeDirection (props c)
           {| previousStepIndex := 0;
              currentStepIndex := 1;
              participants := participants (state (hooks c));
              amount := value |} |}.
Proof.
  intros I E N. pose proof (steps_length (props c)) as L.
  rewrite (step_user_event CONST onyx c (AmountStepComplete value) I eq_refl).
  cbn [after].
  assert (H : hooksAfter (handle CONST onyx (props c) (state (hooks c))
                            (AmountStepComplete value)) (hooks c)
              = {| state := {| previousStepIndex := 0;
                               currentStepIndex := 1;
                               participants := participants (state (hooks c));
                               amount := value |};
                   refs := refs (hooks c) |}).
  { unfold handle. rewrite (pageShown_amount _ _ E).
    erewrite hooksAfter_bind by reflexivity. unfold hooksAfter.
    rewrite navigateToNextStep_run, E. cbn.
    replace (0 >=? len (steps (props c)) - 1) with false by lia.
    destruct (Z.eqb_spec (previousStepIndex (state (hooks c)))
                (len (steps (props c)) - 1)); [contradiction | reflexivity]. }
  rewrite H. cbn [state]. f_equal.
  apply useMemoDirection_recompute. destruct I as (_ & _ & D).
  rewrite D, E. cbn. lia.
Qed.

(** X13: the first step forward. After mounting, completing the amount
    step stores the amount and shows the step at index 1. On the
    three-step wizard that is the participants page and the animation is
    'in'; on the two-step wizard it is the confirm page and the animation
    is 'out', because a move from the amount index to the confirm index
    is always animated 'out'. *)
Theorem first_step_forward (p : Props) (value : string) :
  let c := session CONST lib onyx p [AmountStepComplete value] in
  let short := len (steps p) =? 2 in
  props c = p
  /\ state (hooks c) =
       {| previousStepIndex := 0;
          currentStepIndex := 1;
          participants := participantsWithDetails CONST lib p;
          amount := value |}
  /\ currentStep p (state (hooks c))
     = Some (if short then Steps.IOUConfirm else Steps.IOUParticipants)
  /\ memo_direction (directionMemo c) = (if short then Str "out" else Str "in").
Proof.
  cbv zeta. unfold session. rewrite final_cons. unfold final. cbn [run fst].
  destruct (mount_consistent CONST lib onyx p) as (I & _).
  pose proof (steps_length p) as L.
  rewrite (amount_step_complete _ value I);
    rewrite mount_run; cbn [props hooks state]; try reflexivity; [| cbn; lia].
  cbn [directionMemo computeDirection memo_direction initialState participants].
  repeat split.
  - destruct (steps_cases p) as [E | E]; unfold currentStep; rewrite E; reflexivity.
  - destruct (steps_cases p) as [E | E]; unfold direction; rewrite E; reflexivity.
Qed.

(** X14: completing every step before the confirm step, in order, shows
    the confirm page with the amount that was entered; the participants
    are the selected ones on the three-step wizard and the ones of the
    report on the two-step wizard. *)
Theorem walk_reaches_confirm_page
  (p : Props) (value : string) (selected : list Participant.t) :
  let c := session CONST lib onyx p (walkToConfirm p value selected) in
  props c = p
  /\ pageShown true p (state (hooks c)) Steps.IOUConfirm = true
  /\ currentStepIndex (state (hooks c)) = len (steps p) - 1
  /\ amount (state (hooks c)) = value
  /\ participants (state (hooks c))
     = (if len (steps p) =? 2 then participantsWithDetails CONST lib p else selected).
Proof.
  cbv zeta. unfold session, walkToConfirm.
  destruct (mount_consistent CONST lib onyx p) as (I & _).
  pose proof (steps_length p) as L.
  pose proof (amount_step_complete _ value I) as A.
  rewrite mount_run in A. cbn [props hooks state] in A.
  specialize (A eq_refl ltac:(cbn; lia)).
  pose proof (step_consistent CONST onyx _ (AmountStepComplete value) I) as I1.
  rewrite mount_run in I1 |- *.
  destruct (steps_cases p) as [E | E]; rewrite E in *; cbn [len List.length Z.of_nat];
    cbn [Z.eqb Pos.eqb Pos.of_succ_nat Pos.succ].
  - rewrite final_cons. unfold final. cbn [run fst]. rewrite A.
    cbn [props hooks state]. repeat split.
    unfold pageShown, currentStep. rewrite E. reflexivity.
  - rewrite !final_cons. unfold final. cbn [run fst].
    set (c1 := after (step CONST onyx _ (AmountStepComplete value))) in *.
    pose proof (step_consistent CONST onyx c1 (AddParticipants selected) I1) as I2.
    rewrite (step_user_event CONST onyx _ ParticipantsStepComplete I2 eq_refl).
    rewrite (step_user_event CONST onyx c1 (AddParticipants selected) I1 eq_refl).
    rewrite A. cbn [after props hooks state].
    unfold handle, pageShown, currentStep, navigateToNextStep, navigateToStep.
    rewrite !E. vm_compute. repeat split.
Qed.

End Walk.

(** ** The indices along a session *)

Section Indices.

Variable CONST : Constants.
Variable lib : Collaborators.
Variable onyx : Ref -> Iou.t.

Lemma handle_inside (p : Props) (ev : Event) (h : Hooks) :
  match ev with ConfirmNavigateToStep i => i <> len (steps p) | _ => True end ->
  indicesInside p (state h) ->
  indicesInside p (state (hooksAfter (handle CONST onyx p (state h) ev) h)).
Proof.
  unfold indicesInside. intros N B. pose proof (steps_length p) as L.
  destruct ev; unfold handle;
    try match goal with |- context [if ?b then _ else _] => destruct b end;
    try exact B.
  - unfold hooksAfter. rewrite navigateToPreviousStep_run.
    destruct (Z.leb_spec (currentStepIndex (state h)) 0); cbn; lia.
  - erewrite hooksAfter_bind by reflexivity. unfold hooksAfter.
    rewrite navigateToNextStep_run.
    destruct (Z.geb_spec (currentStepIndex (state h)) (len (steps p) - 1));
      cbn; [lia |].
    destruct (previousStepIndex (state h) =? len (steps p) - 1); lia.
  - unfold hooksAfter. rewrite navigateToNextStep_run.
    destruct (Z.geb_spec (currentStepIndex (state h)) (len (steps p) - 1));
      cbn; [lia |].
    destruct (previousStepIndex (state h) =? len (steps p) - 1); lia.
  - rewrite hooksAfter_then_call, createTransaction_hooks. exact B.
  - rewrite hooksAfter_then_call, sendMoney_hooks. exact B.
  - unfold hooksAfter. rewrite navigateToStep_run.
    destruct (Z.ltb_spec stepIndex 0); destruct (Z.gtb_spec stepIndex (len (steps p)));
      destruct (currentStepIndex (state h) =? stepIndex); cbn; lia.
Qed.

Lemma final_inside (p0 : Props) (evs : list Event) :
  keepsSteps p0 evs ->
  staysBelowLength p0 evs ->
  forall c,
    consistent onyx c ->
    steps (props c) = steps p0 ->
    indicesInside p0 (state (hooks c)) ->
    indicesInside p0 (state (hooks (final CONST onyx c evs))).
Proof.
  induction 1 as [| ev evs K _ IH]; intros N c I S B; [exact B |].
  inversion N as [| ? ? N1 N2]; subst.
  rewrite final_cons. apply (IH N2).
  - apply step_consistent, I.
  - destruct (step_run CONST onyx c ev I) as (P & _). rewrite P.
    destruct ev; assumption.
  - destruct (step_run CONST onyx c ev I) as (_ & H & _). rewrite H. cbn [state].
    assert (B' : indicesInside p0 (state (hooksAfter
                   (handle CONST onyx (props c) (state (hooks c)) ev) (hooks c)))).
    { unfold indicesInside in *. rewrite <- S in *. apply handle_inside; [| exact B].
      destruct ev; auto. }
    unfold indicesInside, settledState in *. destruct (_ && _); cbn; lia.
Qed.

(** X15: the invariant of the two indices, and when it holds. In a
    session in which the step sequence stays the same and the confirm
    page never asks [navigateToStep] for the index that equals the length
    of the sequence, both indices are indices of the step sequence at all
    times, so the view shows a page, with its header, whenever the screen
    transition has ended. *)
Theorem session_indices_inside (p0 : Props) (evs : list Event) :
  keepsSteps p0 evs ->
  staysBelowLength p0 evs ->
  let c := session CONST lib onyx p0 evs in
  0 <= previousStepIndex (state (hooks c)) < len (steps (props c))
  /\ 0 <= currentStepIndex (state (hooks c)) < len (steps (props c))
  /\ (forall ended, headerShown ended (props c) (state (hooks c)) = ended).
Proof.
  intros K N. cbv zeta. pose proof (steps_length p0) as L.
  destruct (mount_consistent CONST lib onyx p0) as (I & _ & P & S).
  assert (E : steps (props (session CONST lib onyx p0 evs)) = steps p0).
  { unfold session. clear N.
    assert (G : forall c, consistent onyx c -> steps (props c) = steps p0 ->
                  steps (props (final CONST onyx c evs)) = steps p0).
    { induction K as [| ev evs K1 _ IH]; intros c Ic Sc; [exact Sc |].
      rewrite final_cons. apply IH; [apply step_consistent, Ic |].
      destruct (step_run CONST onyx c ev Ic) as (Pc & _). rewrite Pc.
      destruct ev; assumption. }
    apply G; [exact I | rewrite P; reflexivity]. }
  assert (B : indicesInside p0 (state (hooks (session CONST lib onyx p0 evs)))).
  { apply (final_inside p0 evs K N); [exact I | rewrite P; reflexivity |].
    unfold indicesInside. rewrite S. cbn. lia. }
  rewrite E. unfold indicesInside in B.
  split; [tauto |]. split; [tauto |].
  intros ended. rewrite headerShown_ended.
  rewrite (proj2 (headerShown_iff _ _)) by (rewrite E; tauto).
  apply andb_true_r.
Qed.

(** X16: whatever index the confirm page asks for, in a session in which
    the step sequence stays the same the current index is never below 0
    and never above the length of the step sequence. *)
Theorem current_index_never_beyond_length (p0 : Props) (evs : list Event) :
  keepsSteps p0 evs ->
  0 <= currentStepIndex (state (hooks (session CONST lib onyx p0 evs)))
    <= len (steps p0).
Proof. apply session_index_up_to_length. Qed.

(** ** Submitting *)

(** X17: confirming changes nothing in the component. On the confirm page
    a press on confirm leaves props, state, refs and memo exactly as they
    were, whether or not a creation is in flight, so that a second press
    does the same again. With a comment in the draft it makes the one call
    of [createTransaction] and then the scroll; without one
    [createTransaction] throws and the press makes no call at all. *)
Theorem confirm_leaves_component_alone
  (p0 : Props) (evs : list Event) (selected : list Participant.t) :
  let c := session CONST lib onyx p0 evs in
  let o := step CONST onyx c (Confirm selected) in
  pageShown true (props c) (state (hooks c)) Steps.IOUConfirm = true ->
  after o = c
  /\ match Iou.comment (iouOf onyx (props c)) with
     | Some _ =>
         handlerCompletion o = Normal tt
         /\ handlerCalls o =
              callsOf (createTransaction CONST onyx (props c) (state (hooks c))
                         selected) (hooks c) ++ [ScrollToBottom]
         /\ List.length (handlerCalls o) = 2%nat
     | None =>
         handlerCompletion o = Throw trimOfUndefined /\ handlerCalls o = []
     end
  /\ step CONST onyx (after o) (Confirm selected) = o.
Proof.
  cbv zeta. intros S.
  pose proof (session_consistent CONST lib onyx p0 evs) as I.
  set (c := session CONST lib onyx p0 evs) in *.
  assert (A : after (step CONST onyx c (Confirm selected)) = c).
  { rewrite (step_user_event CONST onyx c (Confirm selected) I eq_refl).
    cbn [after]. unfold handle. rewrite S.
    rewrite hooksAfter_then_call, createTransaction_hooks.
    destruct I as (_ & D1 & D2). rewrite (useMemoDirection_keep _ _ _ D1 D2).
    destruct c; reflexivity. }
  rewrite A. split; [reflexivity |]. split; [| reflexivity].
  rewrite (step_user_event CONST onyx c (Confirm selected) I eq_refl).
  cbn [handlerCalls handlerCompletion]. unfold handle. rewrite S.
  rewrite callsOf_bind, completionOf_bind.
  destruct (createTransaction_calls CONST onyx (props c) (state (hooks c)) selected (hooks c))
    as (_ & L & R).
  rewrite R. destruct (Iou.comment (iouOf onyx (props c))).
  - repeat split. rewrite length_app, L. reflexivity.
  - split; [reflexivity |].
    destruct (callsOf (createTransaction CONST onyx (props c) (state (hooks c))
                         selected) (hooks c)); [reflexivity | discriminate L].
Qed.

End Indices.

Lemma session_indices_inside_witness :
  let c := session Sample.CONST Sample.lib Sample.onyx Sample.fromMenu
             [AmountStepComplete "10"; ParticipantsStepComplete;
              ConfirmNavigateToStep 0; BackButtonPress] in
  0 <= currentStepIndex (state (hooks c)) < len (steps (props c))
  /\ headerShown true (props c) (state (hooks c)) = true
  /\ headerShown false (props c) (state (hooks c)) = false.
Proof.
  cbv zeta.
  destruct (session_indices_inside Sample.CONST Sample.lib Sample.onyx Sample.fromMenu
              [AmountStepComplete "10"; ParticipantsStepComplete;
               ConfirmNavigateToStep 0; BackButtonPress])
    as (_ & B & H).
  - repeat constructor.
  - repeat constructor. vm_compute. discriminate.
  - split; [exact B | split; apply H].
Defined.

Lemma current_index_never_beyond_length_witness :
  0 <= currentStepIndex
         (state (hooks (session Sample.CONST Sample.lib Sample.onyx Sample.fromChat
                          [AmountStepComplete "10"; ConfirmNavigateToStep 2;
                           ConfirmNavigateToStep 7])))
    <= len (steps Sample.fromChat).
Proof.
  apply (current_index_never_beyond_length Sample.CONST Sample.lib Sample.onyx
           Sample.fromChat).
  repeat constructor.
Defined.

Lemma confirm_leaves_component_alone_witness :
  let c := session Sample.CONST Sample.lib Sample.onyx Sample.fromChat
             [AmountStepComplete "10";
              NewProps (Sample.propsWith (Some ["you@example.com"]) false
                          (Some "42") 1%nat)] in
  let o := step Sample.CONST Sample.onyx c (Confirm []) in
  JS.truthy (creatingFlag Sample.onyx (props c)) = true
  /\ after o = c
  /\ List.length (handlerCalls o) = 2%nat.
Proof.
  cbv zeta.
  destruct (confirm_leaves_component_alone Sample.CONST Sample.lib Sample.onyx
              Sample.fromChat
              [AmountStepComplete "10";
               NewProps (Sample.propsWith (Some ["you@example.com"]) false
                           (Some "42") 1%nat)] [])
    as (A & Q & _); [reflexivity |].
  split; [reflexivity | split; [exact A |]].
  vm_compute in Q. destruct Q as (_ & _ & L). vm_compute. exact L.
Defined.

(** ** The participants of the confirm page and of a payment *)

(** X18: the confirm page receives the participants without the current
    user: no entry it receives has the login of the current user, and
    every other participant is passed on, in the order of the list. *)
Theorem confirm_page_hides_current_user (p : Props) (s : State) :
  Forall (fun x => Participant.login x <> currentUser_login p)
    (confirmPageParticipants p s)
  /\ (forall x, In x (confirmPageParticipants p s)
                <-> In x (participants s)
                    /\ Participant.login x <> currentUser_login p)
  /\ (Forall (fun x => Participant.login x <> currentUser_login p) (participants s)
      <-> confirmPageParticipants p s = participants s).
Proof.
  unfold confirmPageParticipants.
  assert (K : forall x : Participant.t,
             negb (String.eqb (currentUser_login p) (Participant.login x)) = true
             <-> Participant.login x <> currentUser_login p).
  { intros x. destruct (String.eqb_spec (currentUser_login p) (Participant.login x));
      cbn; split; congruence. }
  split; [| split].
  - apply Forall_forall. intros x IN. apply filter_In in IN. apply K, IN.
  - intros x. rewrite filter_In, K. reflexivity.
  - induction (participants s) as [| x l IH]; cbn.
    + split; [reflexivity | constructor].
    + destruct (negb (String.eqb (currentUser_login p) (Participant.login x))) eqn:T.
      * split.
        -- intros F. inversion F; subst. f_equal. apply IH. assumption.
        -- intros E. injection E as E. constructor; [apply K, T | apply IH, E].
      * split.
        -- intros F. inversion F as [| ? ? N _]; subst. apply K in N. congruence.
        -- intros E. exfalso.
           assert (In x (filter (fun email =>
                     negb (String.eqb (currentUser_login p) (Participant.login email))) l))
             as IN by (rewrite E; left; reflexivity).
           apply filter_In in IN. destruct IN as (_ & IN). congruence.
Qed.

Section Recipient.

Variable CONST : Constants.
Variable onyx : Ref -> Iou.t.

(** X19: [sendMoney] pays the first entry of the participants the wizard
    holds, not of the ones the confirm page shows: with a payment type it
    knows, a first participant [x] and a comment in the draft, the one
    call it makes pays [x], also when [x] has the login of the current
    user and is therefore not on the confirm page. Without a comment in
    the draft it throws before it pays anyone. *)
Theorem sendMoney_pays_first_participant
  (p : Props) (s : State) (paymentMethodType : string) (h : Hooks)
  (x : Participant.t) (rest : list Participant.t) :
  participants s = x :: rest ->
  recognized CONST paymentMethodType = true ->
  map recipientOf (callsOf (sendMoney CONST onyx p s paymentMethodType) h)
  = match Iou.comment (iouOf onyx p) with
    | Some _ => [Some (Some x)]
    | None => []
    end
  /\ (Participant.login x = currentUser_login p ->
      ~ In x (confirmPageParticipants p s)).
Proof.
  intros E R. split.
  - unfold recognized in R. unfold sendMoney, callsOf. rewrite E.
    destruct (Iou.comment (iouOf onyx p)) as [text |]; [| reflexivity].
    cbn [trimOf]. unfold bind, ret.
    destruct (String.eqb paymentMethodType (IOU_PAYMENT_TYPE_ELSEWHERE CONST));
      [reflexivity |].
    destruct (String.eqb paymentMethodType (IOU_PAYMENT_TYPE_PAYPAL_ME CONST));
      [reflexivity |].
    destruct (String.eqb paymentMethodType (IOU_PAYMENT_TYPE_EXPENSIFY CONST));
      [reflexivity | discriminate R].
  - intros L IN. unfold confirmPageParticipants in IN. apply filter_In in IN.
    destruct IN as (_ & IN). rewrite L, String.eqb_refl in IN. discriminate IN.
Qed.

(** X20: a bill is split on the report of the route only when the
    participants could be modified. If the number test rejects the empty
    string, then whenever [createTransaction] calls [splitBill] the route
    names a report, which is when the confirm page lets the user modify
    the participants. *)
Theorem splitBill_implies_modifiable
  (p : Props) (s : State) (selected : list Participant.t) (h : Hooks) :
  REGEX_NUMBER_test CONST "" = false ->
  existsb isSplitBill (callsOf (createTransaction CONST onyx p s selected) h) = true ->
  canModifyParticipants p = true.
Proof.
  intros N. unfold createTransaction, callsOf, canModifyParticipants.
  destruct (Iou.comment (iouOf onyx p)) as [text |]; [| discriminate].
  cbn [trimOf]. unfold bind, ret.
  destruct (hasMultipleParticipants p); [| discriminate].
  destruct (JS.getOr (route_params_reportID p) "") as [| c r] eqn:E.
  - cbn. rewrite N. discriminate.
  - reflexivity.
Qed.

End Recipient.

Lemma sendMoney_pays_first_participant_witness :
  let me := {| Participant.login := "me@example.com";
               Participant.text := "Me";
               Participant.firstName := "";
               Participant.lastName := "";
               Participant.alternateText := "me@example.com";
               Participant.icons := [];
               Participant.keyForList := "me@example.com";
               Participant.payPalMeAddress := "";
               Participant.phoneNumber := "" |} in
  let s := {| previousStepIndex := 0; currentStepIndex := 1;
              participants := [me]; amount := "10" |} in
  map recipientOf
    (callsOf (sendMoney Sample.CONST Sample.onyx Sample.fromChat s "Expensify")
       (Sample.someHooks 0 1 "10"))
  = [Some (Some me)]
  /\ confirmPageParticipants Sample.fromChat s = [].
Proof.
  cbv zeta.
  split.
  - eapply (sendMoney_pays_first_participant Sample.CONST Sample.onyx Sample.fromChat);
      reflexivity.
  - reflexivity.
Defined.

Lemma splitBill_implies_modifiable_witness :
  canModifyParticipants (Sample.propsWith None true (Some "998877") 0%nat) = true.
Proof.
  apply (splitBill_implies_modifiable Sample.CONST Sample.onyx
           (Sample.propsWith None true (Some "998877") 0%nat)
           (Sample.someState 1 2 "10") [] (Sample.someHooks 1 2 "10"));
    reflexivity.
Defined.

(** ** After a creation settled, and after a move *)

Section Settled.

Variable CONST : Constants.
Variable lib : Collaborators.
Variable onyx : Ref -> Iou.t.

(** X22: what the user sees when a creation settles. In any session, when
    the in-flight flag falls with the error flag set, the page of the view
    is the amount page, shown as soon as the screen transition has ended
    and not before, without back button, and the modal is not dismissed;
    when the flag falls without the error flag, the modal is dismissed and
    the state stays as it was. *)
Theorem settled_creation_outcome
  (p0 : Props) (evs : list Event) (q : Props) :
  let c := session CONST lib onyx p0 evs in
  let o := step CONST onyx c (NewProps q) in
  fallingEdge onyx (props c) q = true ->
  if JS.truthy (Iou.error (iouOf onyx q))
  then (forall ended,
          pageShown ended q (state (hooks (after o))) Steps.IOUAmount = ended)
       /\ shouldShowBackButton (state (hooks (after o))) = false
       /\ ~ In DismissModal (effectCalls o)
  else In DismissModal (effectCalls o)
       /\ state (hooks (after o)) = state (hooks c).
Proof.
  cbv zeta. intros F.
  pose proof (session_consistent CONST lib onyx p0 evs) as I.
  destruct (step_run CONST onyx _ (NewProps q) I) as (_ & H & _ & EC & _).
  cbn [handle] in H. unfold hooksAfter, skip, ret in H. cbn [fst snd] in H.
  rewrite H, EC, F. unfold settledState, completionCall. rewrite F. cbn [state andb].
  destruct (Iou.error (iouOf onyx q)) as [[|] |]; cbn [JS.truthy].
  - split; [intros ended; apply pageShown_amount_ended; reflexivity |].
    split; [reflexivity |].
    destruct (cameBackOnline _ _); cbn; intuition discriminate.
  - split; [left; reflexivity | reflexivity].
  - split; [left; reflexivity | reflexivity].
Qed.

(** A handler either leaves the current index or moves to another index
    and stores the index it left as the previous one. *)
Lemma handle_moves (p : Props) (ev : Event) (h : Hooks) :
  let h' := hooksAfter (handle CONST onyx p (state h) ev) h in
  (previousStepIndex (state h') = previousStepIndex (state h)
   /\ currentStepIndex (state h') = currentStepIndex (state h))
  \/ (previousStepIndex (state h') = currentStepIndex (state h)
      /\ currentStepIndex (state h') <> currentStepIndex (state h)).
Proof.
  cbv zeta. pose proof (steps_length p) as L.
  destruct ev; unfold handle;
    try match goal with |- context [if ?b then _ else _] => destruct b end;
    try (left; split; reflexivity).
  - unfold hooksAfter. rewrite navigateToPreviousStep_run.
    destruct (Z.leb_spec (currentStepIndex (state h)) 0); cbn;
      [left; split; reflexivity | right; split; [reflexivity | lia]].
  - erewrite hooksAfter_bind by reflexivity. unfold hooksAfter. rewrite navigateToNextStep_run.
    destruct (Z.geb_spec (currentStepIndex (state h)) (len (steps p) - 1)); cbn;
      [left; split; reflexivity | right; split; [reflexivity |]].
    destruct (previousStepIndex (state h) =? len (steps p) - 1); lia.
  - unfold hooksAfter. rewrite navigateToNextStep_run.
    destruct (Z.geb_spec (currentStepIndex (state h)) (len (steps p) - 1)); cbn;
      [left; split; reflexivity | right; split; [reflexivity |]].
    destruct (previousStepIndex (state h) =? len (steps p) - 1); lia.
  - rewrite hooksAfter_then_call, createTransaction_hooks. left; split; reflexivity.
  - rewrite hooksAfter_then_call, sendMoney_hooks. left; split; reflexivity.
  - unfold hooksAfter. rewrite navigateToStep_run.
    destruct (Z.ltb_spec stepIndex 0); destruct (Z.gtb_spec stepIndex (len (steps p)));
      destruct (Z.eqb_spec (currentStepIndex (state h)) stepIndex); cbn;
      try (left; split; reflexivity); right; split; [reflexivity | lia].
Qed.

(** X23: every move of the user is recorded and animated. In any session,
    when an event of the user changes the current index, the previous
    index becomes the index that was left, and the direction the view
    receives is computed anew from the two indices, with the step
    sequence of the props, and is 'in' or 'out'. *)
Theorem user_move_is_animated (p0 : Props) (evs : list Event) (ev : Event) :
  let c := session CONST lib onyx p0 evs in
  let c' := after (step CONST onyx c ev) in
  isNewProps ev = false ->
  currentStepIndex (state (hooks c')) <> currentStepIndex (state (hooks c)) ->
  previousStepIndex (state (hooks c')) = currentStepIndex (state (hooks c))
  /\ memo_direction (directionMemo c') = direction (props c') (state (hooks c'))
  /\ (memo_direction (directionMemo c') = Str "in"
      \/ memo_direction (directionMemo c') = Str "out").
Proof.
  cbv zeta. intros U.
  pose proof (session_consistent CONST lib onyx p0 evs) as I.
  set (c := session CONST lib onyx p0 evs) in *.
  rewrite (step_user_event CONST onyx c ev I U). cbn [after props hooks directionMemo].
  intros N.
  destruct (handle_moves (props c) ev (hooks c)) as [(_ & E) | (E1 & E2)];
    [contradiction |].
  assert (M : useMemoDirection (Some (directionMemo c)) (props c)
                (state (hooksAfter (handle CONST onyx (props c) (state (hooks c)) ev)
                          (hooks c)))
              = computeDirection (props c)
                  (state (hooksAfter (handle CONST onyx (props c) (state (hooks c)) ev)
                            (hooks c)))).
  { apply useMemoDirection_recompute. destruct I as (_ & _ & D). rewrite D.
    congruence. }
  rewrite M. cbn [memo_direction computeDirection].
  split; [exact E1 |]. split; [reflexivity |].
  destruct (direction_null_same_iff (props c)
              (state (hooksAfter (handle CONST onyx (props c) (state (hooks c)) ev)
                        (hooks c)))) as (D & Z).
  destruct D as [D | [D | D]]; [left; exact D | right; exact D |].
  exfalso. apply Z in D. congruence.
Qed.

End Settled.

Lemma settled_creation_outcome_witness :
  let c := session Sample.CONST Sample.lib Sample.onyx Sample.fromMenu
             [AmountStepComplete "10"; ParticipantsStepComplete; Confirm [];
              NewProps (Sample.propsWith None false None 1%nat)] in
  pageShown true (Sample.propsWith None false None 2%nat)
    (state (hooks (after (step Sample.CONST Sample.onyx c
                            (NewProps (Sample.propsWith None false None 2%nat))))))
    Steps.IOUAmount = true
  /\ In DismissModal
       (effectCalls (step Sample.CONST Sample.onyx c
                       (NewProps (Sample.propsWith None false None 3%nat)))).
Proof.
  cbv zeta. split.
  - apply (settled_creation_outcome Sample.CONST Sample.lib Sample.onyx Sample.fromMenu
             [AmountStepComplete "10"; ParticipantsStepComplete; Confirm [];
              NewProps (Sample.propsWith None false None 1%nat)]
             (Sample.propsWith None false None 2%nat)).
    reflexivity.
  - apply (settled_creation_outcome Sample.CONST Sample.lib Sample.onyx Sample.fromMenu
             [AmountStepComplete "10"; ParticipantsStepComplete; Confirm [];
              NewProps (Sample.propsWith None false None 1%nat)]
             (Sample.propsWith None false None 3%nat)).
    reflexivity.
Defined.

Lemma user_move_is_animated_witness :
  let c := session Sample.CONST Sample.lib Sample.onyx Sample.fromMenu
             [AmountStepComplete "10"] in
  let c' := after (step Sample.CONST Sample.onyx c BackButtonPress) in
  previousStepIndex (state (hooks c')) = 1
  /\ memo_direction (directionMemo c') = direction (props c') (state (hooks c')).
Proof.
  cbv zeta.
  destruct (user_move_is_animated Sample.CONST Sample.lib Sample.onyx Sample.fromMenu
              [AmountStepComplete "10"] BackButtonPress) as (P & D & _).
  - reflexivity.
  - vm_compute. discriminate.
  - split; [exact P | exact D].
Defined.
